(** * Slovak public-partners register scraper: model and properties

    A shallow embedding of [app.py] (class [SlovakPartnerScraper]):
    the text normaliser [convert_to_english], the owner-table parser
    [parse_bo_table], the address parser [parse_address], the page
    extractor [scrape_partner] and the crawl loop [run].

    Python [str] values are sequences of Unicode code points and are
    modelled as [list N]; [None] is the [None] of [option].  Python
    dicts with string keys and optional text values are [gmap]s, the
    processed-URL set is a [gset]. *)

From Stdlib Require Import NArith ZArith Ascii String List Bool Lia Sorted.
From stdpp Require Import base tactics option list strings gmap pretty.

Local Open Scope N_scope.

(** ** Python strings *)

Module Str.

(** A Python [str]: its code points in order. *)
Definition pystr := list N.

(** An ASCII literal of the source as a [pystr]. *)
Definition py (s : string) : pystr :=
  List.map N_of_ascii (list_ascii_of_string s).

Definition is_ascii (c : N) : bool := c <? 128.

(** [str.isspace] for one code point; also the class [\s] of [re] on
    [str] patterns.  This is the whole of CPython's whitespace table. *)
Definition isspace (c : N) : bool :=
  ((9 <=? c) && (c <=? 13)) || ((28 <=? c) && (c <=? 32))
  || (c =? 133) || (c =? 160) || (c =? 5760)
  || ((8192 <=? c) && (c <=? 8202))
  || (c =? 8232) || (c =? 8233) || (c =? 8239) || (c =? 8287)
  || (c =? 12288).

Definition comma : N := 44.
Definition space : N := 32.
Definition newline : N := 10.

Fixpoint lstrip_by (p : N → bool) (s : pystr) : pystr :=
  match s with
  | [] => []
  | c :: s' => if p c then lstrip_by p s' else s
  end.

Definition rstrip_by (p : N → bool) (s : pystr) : pystr :=
  rev (lstrip_by p (rev s)).

Definition strip_by (p : N → bool) (s : pystr) : pystr :=
  rstrip_by p (lstrip_by p s).

(** [s.strip()] *)
Definition strip (s : pystr) : pystr := strip_by isspace s.

(** [s.strip(chars)] *)
Definition strip_chars (chars : pystr) (s : pystr) : pystr :=
  strip_by (λ c, existsb (N.eqb c) chars) s.

(** [s.startswith(p)] *)
Fixpoint startswith (p s : pystr) : bool :=
  match p, s with
  | [], _ => true
  | _ :: _, [] => false
  | a :: p', b :: s' => (a =? b) && startswith p' s'
  end.

(** [sub in s] *)
Fixpoint contains (sub s : pystr) : bool :=
  startswith sub s ||
  match s with
  | [] => false
  | _ :: s' => contains sub s'
  end.

(** [s.replace(old, new)] for a non-empty [old]: occurrences are found
    left to right and do not overlap.  [skip] counts the characters of
    the occurrence being replaced that are still to be passed over. *)
Fixpoint replace_from (old new s : pystr) (skip : nat) : pystr :=
  match s with
  | [] => []
  | c :: s' =>
      match skip with
      | S k => replace_from old new s' k
      | O =>
          if startswith old s
          then new ++ replace_from old new s' (length old - 1)
          else c :: replace_from old new s' 0
      end
  end.

(** [s.replace(old, new)]; with an empty [old] Python puts [new] before
    every character and at the end. *)
Definition replace (old new s : pystr) : pystr :=
  match old with
  | [] => new ++ flat_map (λ c, c :: new) s
  | _ :: _ => replace_from old new s 0
  end.

(** [s.split(sep)] for a non-empty [sep] (an empty one raises
    [ValueError]; the source only passes literals). *)
Fixpoint split_from (sep s : pystr) (skip : nat) : list pystr :=
  match s with
  | [] => [[]]
  | c :: s' =>
      match skip with
      | S k => split_from sep s' k
      | O =>
          if startswith sep s
          then [] :: split_from sep s' (length sep - 1)
          else match split_from sep s' 0 with
               | w :: ws => (c :: w) :: ws
               | [] => [[c]]
               end
      end
  end.

Definition split (sep s : pystr) : list pystr := split_from sep s 0.

(** [sep.join(parts)] *)
Fixpoint join (sep : pystr) (parts : list pystr) : pystr :=
  match parts with
  | [] => []
  | [p] => p
  | p :: ps => p ++ sep ++ join sep ps
  end.

(** The longest prefix of [s] whose characters all satisfy [p]. *)
Fixpoint span_while (p : N → bool) (s : pystr) : pystr :=
  match s with
  | [] => []
  | c :: s' => if p c then c :: span_while p s' else []
  end.

End Str.
Export Str.

(** ** The Unicode database

    [unicodedata.normalize], the class [\d] of [re], [str.lower] and
    [int] consult the interpreter's Unicode tables.  The scraper is
    modelled over any such tables; [UnicodeLaws] records the facts about
    ASCII text that the proofs use. *)

Inductive exn : Type :=
  | TypeError | AttributeError | ValueError | OSError | RequestException
  | OtherException (msg : pystr).

(** The outcome of a call that may raise. *)
Inductive result (A : Type) : Type :=
  | Return (a : A)
  | Raise (e : exn).
Arguments Return {A} a.
Arguments Raise {A} e.

Global Instance result_ret : MRet result := λ A a, Return a.
Global Instance result_bind : MBind result := λ A B k r,
  match r with
  | Return a => k a
  | Raise e => Raise e
  end.

Class UnicodeData := {
  (** [unicodedata.normalize('NFKD', s)] *)
  nfkd : pystr → pystr;
  (** the class [\d]: Unicode decimal digits *)
  isdecimal : N → bool;
  (** [s.lower()] *)
  lower : pystr → pystr;
  (** [int(s)] *)
  int : pystr → result Z;
}.

Definition lower_ascii (c : N) : N :=
  if (65 <=? c) && (c <=? 90) then c + 32 else c.

Definition isdigit_ascii (c : N) : bool := (48 <=? c) && (c <=? 57).

Class UnicodeLaws (U : UnicodeData) : Prop := {
  nfkd_ascii : ∀ s, forallb is_ascii s = true → nfkd s = s;
  isdecimal_ascii : ∀ c, is_ascii c = true → isdecimal c = isdigit_ascii c;
  isdecimal_not_space : ∀ c, isdecimal c = true → isspace c = false;
  lower_ascii_str : ∀ s, forallb is_ascii s = true → lower s = List.map lower_ascii s;
}.

(** ** TextNormalizer: [convert_to_english] *)

Section Normalizer.
Context {U : UnicodeData}.

(** [text.encode('ascii', 'ignore').decode('ascii')] *)
Definition encode_ascii_ignore (text : pystr) : pystr :=
  List.filter is_ascii text.

Definition convert_to_english (text : option pystr) : option pystr :=
  match text with
  | None => None
  | Some [] => None
  | Some ((_ :: _) as text) => Some (encode_ascii_ignore (nfkd text))
  end.

End Normalizer.

(** ** The parsed document

    BeautifulSoup is an external collaborator; the scraper only uses the
    queries below, so a document is modelled by what they return. *)

(** An element, as the text nodes below it in document order. *)
Definition element := list pystr.

(** [el.get_text(sep, strip=True)]: every text node is stripped, empty
    ones are dropped and the rest joined by [sep]. *)
Definition get_text (sep : pystr) (el : element) : pystr :=
  join sep (List.filter (λ t, negb (bool_decide (t = []))) (List.map strip el)).

(** A [div.form-group]: [group.find('label')],
    [group.find('p', class_='form-control-static')] and the [href] of
    [group.find('a', href=True)]. *)
Record form_group := {
  label : option element;
  p_static : option element;
  a_href : option pystr;
}.

(** A table row: [row.find_all('td')]. *)
Definition tr := list element.

(** A table: the rows of [table.find('tbody')], if it has a [tbody]. *)
Record bo_table := { tbody : option (list tr) }.

(** A document: [soup.find_all('div', class_='form-group')] and
    [soup.find('table', class_='table')]. *)
Record soup := {
  form_groups : list form_group;
  table : option bo_table;
}.

(** ** Records *)

(** A Python dict with string keys and optional text values. *)
Abbreviation dict := (gmap string (option pystr)).

(** [d.get(k)]: [None] for a missing key and for a key bound to [None]. *)
Definition get (d : dict) (k : string) : option pystr :=
  match d !! k with
  | Some v => v
  | None => None
  end.

(** An owner as [parse_bo_table] builds it. *)
Record owner_row := {
  row_name : option pystr;          (* 'Name and surname of the BO' *)
  row_birth : option pystr;         (* 'Date of Birth' *)
  row_nationality : option pystr;   (* 'Nationality' *)
  row_address : option pystr;       (* 'Address of the BO' *)
}.

(** An owner once [scrape_partner] has parsed its address. *)
Record owner := {
  NameAndSurname : option pystr;
  DateOfBirth : option pystr;
  Nationality : option pystr;
  AddressOfTheBO : dict;
}.

Record record := {
  BusinessName : option pystr;
  ICO : option pystr;
  Address : dict;
  VerificationDate : option pystr;
  VerificationDocumentURL : option pystr;
  BeneficialOwners : list owner;
  SourceURL : pystr;
}.

(** ** PageExtractor: field lookup and the owner table *)

Fixpoint get_field_in (groups : list form_group) (label_text : pystr) : option pystr :=
  match groups with
  | [] => None
  | group :: groups' =>
      match label group with
      | Some l =>
          if contains label_text (get_text [] l)
          then match p_static group with
               | Some p => Some (get_text [] p)
               | None => get_field_in groups' label_text
               end
          else get_field_in groups' label_text
      | None => get_field_in groups' label_text
      end
  end.

Definition get_field (s : soup) (label_text : pystr) : option pystr :=
  get_field_in (form_groups s) label_text.

Fixpoint get_pdf_url_in (groups : list form_group) (label_text base_url : pystr) : option pystr :=
  match groups with
  | [] => None
  | group :: groups' =>
      match label group with
      | Some l =>
          if contains label_text (get_text [] l)
          then match a_href group with
               | Some href => Some (base_url ++ href)
               | None => get_pdf_url_in groups' label_text base_url
               end
          else get_pdf_url_in groups' label_text base_url
      | None => get_pdf_url_in groups' label_text base_url
      end
  end.

Definition get_pdf_url (s : soup) (label_text : pystr) : option pystr :=
  get_pdf_url_in (form_groups s) label_text (py "https://rpvs.gov.sk").

(** The literal ['Meno a priezvisko']. *)
Definition name_label : pystr := py "Meno a priezvisko".

(** The literal ['Dátum narodenia']; its second character is U+00E1. *)
Definition birth_marker : pystr := py "D" ++ [225] ++ py "tum narodenia".

Section Extractor.
Context {U : UnicodeData}.

(** The body of the row loop of [parse_bo_table]: rows with fewer than
    four cells append nothing. *)
Definition parse_bo_row (cols : tr) : list owner_row :=
  match cols with
  | c0 :: c1 :: c2 :: c3 :: _ =>
      let first_col := get_text [space] c0 in
      let first_col :=
        if startswith name_label first_col
        then strip (replace name_label [] first_col)
        else first_col in
      let name_part := strip (hd [] (split birth_marker first_col)) in
      [ {| row_name := convert_to_english (Some name_part);
           row_birth := convert_to_english (Some (get_text [] c1));
           row_nationality := convert_to_english (Some (get_text [] c2));
           row_address := convert_to_english (Some (get_text [] c3)) |} ]
  | _ => []
  end.

(** [bo_table.find('tbody')] is [None] for a table without [tbody];
    calling [find_all] on it raises [AttributeError]. *)
Definition parse_bo_table (s : soup) : result (list owner_row) :=
  match table s with
  | None => Return []
  | Some bo_table =>
      match tbody bo_table with
      | None => Raise AttributeError
      | Some rows => Return (flat_map parse_bo_row rows)
      end
  end.

End Extractor.

(** ** AddressParser: [parse_address] *)

Definition countries : list pystr :=
  List.map py
    [ "Slovenska republika"; "Turecka republika"; "Hongkong";
      "Holandske kralovstvo"; "Polska republika"; "Kajmanie ostrovy";
      "Rakuska republika"; "Talianska republika"; "Nemecka spolkova republika";
      "Spojene staty americke"; "Spojene arabske emiraty"; "Ruska federacia";
      "Kanada"; "Bosna a Hercegovina"; "Indicka republika"; "Ceska republika" ]%string.

Section AddressParser.
Context {U : UnicodeData}.

(** [\d{2}] at the start of [s]: the digits and what follows them. *)
Definition two_digits (s : pystr) : option (pystr * pystr) :=
  match s with
  | d4 :: d5 :: rest => if isdecimal d4 && isdecimal d5 then Some ([d4; d5], rest) else None
  | _ => None
  end.

(** [\d{3}\s?\d{2}] at the start of [s]: group 1 and what follows it.
    The optional [\s] is greedy: the matcher first tries to take a
    whitespace character and falls back to taking none. *)
Definition zip_group (s : pystr) : option (pystr * pystr) :=
  match s with
  | d1 :: d2 :: d3 :: rest =>
      if isdecimal d1 && isdecimal d2 && isdecimal d3 then
        let with_space :=
          match rest with
          | w :: rest1 =>
              if isspace w
              then match two_digits rest1 with
                   | Some (dd, r) => Some ([d1; d2; d3; w] ++ dd, r)
                   | None => None
                   end
              else None
          | [] => None
          end in
        match with_space with
        | Some m => Some m
        | None =>
            match two_digits rest with
            | Some (dd, r) => Some ([d1; d2; d3] ++ dd, r)
            | None => None
            end
        end
      else None
  | _ => None
  end.

(** [re.match] of the pattern [(\d{3}\s?\d{2})\s*] followed by a greedy
    any-character group, on [s]: groups 1 and 2.  After group 1, the
    whitespace star takes all the whitespace that follows and the last
    group runs to the next newline or the end of the text. *)
Definition zip_match (s : pystr) : option (pystr * pystr) :=
  match zip_group s with
  | Some (g1, rest) =>
      Some (g1, span_while (λ c, negb (c =? newline)) (lstrip_by isspace rest))
  | None => None
  end.

(** The country loop: the found country and the new [city_country]. *)
Fixpoint detect_country (cs : list pystr) (city_country : pystr) : option pystr * pystr :=
  match cs with
  | [] => (None, city_country)
  | c :: cs' =>
      if contains (lower c) (lower city_country)
      then (Some c, strip (strip_chars (py ", ") (replace c [] city_country)))
      else detect_country cs' city_country
  end.

Definition fallback_address (address : pystr) : dict :=
  {[ "Address" := Some address; "PostalCode" := None;
     "City" := None; "Country" := None ]}%string.

Definition parse_address (full_address : option pystr) : dict :=
  match full_address with
  | None | Some [] => ∅
  | Some full_address =>
      let address := strip full_address in
      let parts := List.map strip (split [comma] address) in
      match parts with
      | street_part :: ((_ :: _) as rest) =>
          let zip_city_country := join (py ", ") rest in
          match zip_match zip_city_country with
          | Some (g1, g2) =>
              let postal_code := strip g1 in
              let city_country := strip g2 in
              let '(country_found, city_country) := detect_country countries city_country in
              {[ "Address" := Some street_part;
                 "PostalCode" := Some postal_code;
                 "City" := match city_country with [] => None | _ => Some city_country end;
                 "Country" := country_found ]}%string
          | None => fallback_address address
          end
      | _ => fallback_address address
      end
  end.

End AddressParser.

(** ** The outside world

    The HTTP client, the HTML parser, the file system and the clock are
    external.  An oracle gives what each call returns or raises, so that
    every behaviour of the scraper is covered by some [World]. *)

Record response := {
  status_code : Z;
  text : pystr;
}.

Inductive target := CacheFile | OutputFile.

(** How rewriting a file goes: it succeeds, [open] raises and leaves the
    file as it was, or the write raises after [open] has truncated it. *)
Inductive write_outcome := WriteOk | OpenFails | DumpFails.

Class World := {
  (** [requests.get(url, ...)] *)
  requests_get : pystr → result response;
  (** [BeautifulSoup(html, 'html.parser')] *)
  BeautifulSoup : option pystr → result soup;
  (** rewriting a file while the given partner ID is processed *)
  fs_write : target → Z → write_outcome;
  (** [time.sleep(self.delay)] after the given partner ID *)
  sleep : Z → result unit;
}.

Definition BASE_URL : pystr := py "https://rpvs.gov.sk/rpvs/Partner/Partner/Detail/".

(** [f'{BASE_URL}{partner_id}'] *)
Definition detail_url (partner_id : Z) : pystr := BASE_URL ++ py (pretty partner_id).

(** The labels looked up by [scrape_partner]; each holds a letter with a
    diacritic, given by its code point. *)
Definition label_address : pystr := py "Adresa s" ++ [237] ++ py "dla".
Definition label_name : pystr := py "Obchodn" ++ [233] ++ py " meno".
Definition label_ico : pystr := py "I" ++ [268] ++ py "O".
Definition label_date : pystr := py "D" ++ [225] ++ py "tum overenia".
Definition label_pdf : pystr :=
  py "Verifika" ++ [269] ++ py "n" ++ [253] ++ py " dokument (pdf)".

(** ** CrawlController state *)

(** What a JSON file holds: nothing (no file), a complete document, or a
    truncated or partly written one. *)
Inductive file (A : Type) : Type :=
  | Missing
  | Stored (a : A)
  | Torn.
Arguments Missing {A}.
Arguments Stored {A} a.
Arguments Torn {A}.

Inductive log_entry : Type :=
  | LogSkipped (url : pystr)
  | LogSaved (partner_id : Z) (business_name : option pystr)
  | LogWarning (partner_id : Z) (e : exn).

Record state := {
  all_data : list record;
  processed_ids : gset pystr;
  cache_file : file (list pystr);
  output_file : file (list record);
  log : list log_entry;
}.

(** A statement sequence: it changes the state and returns or raises. *)
Definition prog (A : Type) : Type := state → state * result A.

Definition modify (f : state → state) : prog unit := λ st, (f st, Return ()).
Definition lift {A} (r : result A) : prog A := λ st, (st, r).
Definition read {A} (f : state → A) : prog A := λ st, (st, Return (f st)).

Definition set_all_data (v : list record) (st : state) : state :=
  {| all_data := v; processed_ids := processed_ids st;
     cache_file := cache_file st; output_file := output_file st; log := log st |}.
Definition set_processed_ids (v : gset pystr) (st : state) : state :=
  {| all_data := all_data st; processed_ids := v;
     cache_file := cache_file st; output_file := output_file st; log := log st |}.
Definition set_cache_file (v : file (list pystr)) (st : state) : state :=
  {| all_data := all_data st; processed_ids := processed_ids st;
     cache_file := v; output_file := output_file st; log := log st |}.
Definition set_output_file (v : file (list record)) (st : state) : state :=
  {| all_data := all_data st; processed_ids := processed_ids st;
     cache_file := cache_file st; output_file := v; log := log st |}.
Definition add_log (e : log_entry) (st : state) : state :=
  {| all_data := all_data st; processed_ids := processed_ids st;
     cache_file := cache_file st; output_file := output_file st; log := log st ++ [e] |}.

Global Instance prog_ret : MRet prog := λ A a st, (st, Return a).
Global Instance prog_bind : MBind prog := λ A B k m st,
  match m st with
  | (st', Return a) => k a st'
  | (st', Raise e) => (st', Raise e)
  end.

(** [try: body except Exception as e: handler(e)] *)
Definition try_except (body : prog unit) (handler : exn → prog unit) : prog unit :=
  λ st,
    match body st with
    | (st', Return tt) => (st', Return tt)
    | (st', Raise e) => handler e st'
    end.

Section Crawl.
Context {U : UnicodeData} {W : World}.

(** The loop over [bos] that replaces each raw address by its parse. *)
Definition parse_owner_address (bo : owner_row) : owner :=
  {| NameAndSurname := row_name bo;
     DateOfBirth := row_birth bo;
     Nationality := row_nationality bo;
     AddressOfTheBO := parse_address (row_address bo) |}.

Definition scrape_partner (partner_id : Z) : result (option record) :=
  let url := detail_url partner_id in
  response ← requests_get url;
  if negb (status_code response =? 200)%Z then Return None else
  let html := convert_to_english (Some (text response)) in
  soup ← BeautifulSoup html;
  bos ← parse_bo_table soup;
  match bos with
  | [] => Return None
  | _ :: _ =>
      let full_address := get_field soup label_address in
      let parsed_business_address := parse_address (convert_to_english full_address) in
      let bos := List.map parse_owner_address bos in
      Return (Some
        {| BusinessName := convert_to_english (get_field soup label_name);
           ICO := convert_to_english (get_field soup label_ico);
           Address := parsed_business_address;
           VerificationDate := convert_to_english (get_field soup label_date);
           VerificationDocumentURL := convert_to_english (get_pdf_url soup label_pdf);
           BeneficialOwners := bos;
           SourceURL := url |})
  end.

(** *** The crawl loop *)

(** *** Saving the cache: URLs sorted by their trailing number *)

(** The sort key [int(x.split('/')[-1])]. *)
Definition url_key (x : pystr) : result Z :=
  int (List.last (split (py "/") x) []).

Fixpoint keyed (l : list pystr) : result (list (Z * pystr)) :=
  match l with
  | [] => Return []
  | x :: l' =>
      k ← url_key x;
      kl ← keyed l';
      Return ((k, x) :: kl)
  end.

Fixpoint insert_keyed (kx : Z * pystr) (l : list (Z * pystr)) : list (Z * pystr) :=
  match l with
  | [] => [kx]
  | ky :: l' =>
      if (fst kx <=? fst ky)%Z then kx :: l else ky :: insert_keyed kx l'
  end.

(** [sorted(l, key=...)]: a stable sort; a key that cannot be computed
    raises before anything is sorted. *)
Definition sorted_by_key (l : list pystr) : result (list pystr) :=
  kl ← keyed l;
  Return (List.map snd (foldr insert_keyed [] kl)).

(** [with open(self.cache_file, 'w') as f: ... json.dump(sorted_urls, f)] *)
Definition save_cache (partner_id : Z) : prog unit :=
  match fs_write CacheFile partner_id with
  | OpenFails => lift (Raise OSError)
  | outcome =>
      modify (set_cache_file Torn);;
      ids ← read processed_ids;
      sorted_urls ← lift (sorted_by_key (elements ids));
      match outcome with
      | WriteOk => modify (set_cache_file (Stored sorted_urls))
      | _ => lift (Raise OSError)
      end
  end.

(** [with open(self.output_file, 'w') as f: json.dump(self.all_data, f)] *)
Definition save_output (partner_id : Z) : prog unit :=
  match fs_write OutputFile partner_id with
  | OpenFails => lift (Raise OSError)
  | outcome =>
      modify (set_output_file Torn);;
      match outcome with
      | WriteOk => data ← read all_data; modify (set_output_file (Stored data))
      | _ => lift (Raise OSError)
      end
  end.

(** The body of the [try] block of [run] for one partner ID. *)
Definition try_body (partner_id : Z) (url : pystr) : prog unit :=
  data ← lift (scrape_partner partner_id);
  match data with
  | Some data =>
      modify (λ st, set_all_data (all_data st ++ [data]) st);;
      modify (add_log (LogSaved partner_id (BusinessName data)));;
      modify (λ st, set_processed_ids ({[ url ]} ∪ processed_ids st) st);;
      save_cache partner_id;;
      save_output partner_id;;
      lift (sleep partner_id)
  | None => mret ()
  end.

(** One iteration of the loop of [run]. *)
Definition step (st : state) (partner_id : Z) : state :=
  let url := detail_url partner_id in
  if bool_decide (url ∈ processed_ids st)
  then add_log (LogSkipped url) st
  else fst (try_except (try_body partner_id url)
                       (λ e, modify (add_log (LogWarning partner_id e))) st).

(** [for partner_id in range(self.start, self.end + 1)] *)
Definition run (start end_ : Z) (st : state) : state :=
  foldl step st (seqZ start (end_ + 1 - start)).

End Crawl.

(** ** A concrete Unicode database

    [latin_db] instantiates the tables on the text this register uses:
    the decompositions of the Slovak and Czech letters with diacritics
    and of the no-break space, ASCII digits and ASCII case.  A code point
    outside the table decomposes to itself, as every code point without
    a decomposition mapping does (the euro sign U+20AC is one). *)

Definition acute : N := 769.
Definition circumflex : N := 770.
Definition diaeresis : N := 776.
Definition ring_above : N := 778.
Definition caron : N := 780.

Definition decompositions : list (N * pystr) :=
  [ (160, [32]);
    (193, [65; acute]); (225, [97; acute]);
    (196, [65; diaeresis]); (228, [97; diaeresis]);
    (268, [67; caron]); (269, [99; caron]);
    (270, [68; caron]); (271, [100; caron]);
    (201, [69; acute]); (233, [101; acute]);
    (282, [69; caron]); (283, [101; caron]);
    (205, [73; acute]); (237, [105; acute]);
    (313, [76; acute]); (314, [108; acute]);
    (317, [76; caron]); (318, [108; caron]);
    (327, [78; caron]); (328, [110; caron]);
    (211, [79; acute]); (243, [111; acute]);
    (212, [79; circumflex]); (244, [111; circumflex]);
    (340, [82; acute]); (341, [114; acute]);
    (344, [82; caron]); (345, [114; caron]);
    (352, [83; caron]); (353, [115; caron]);
    (356, [84; caron]); (357, [116; caron]);
    (218, [85; acute]); (250, [117; acute]);
    (366, [85; ring_above]); (367, [117; ring_above]);
    (221, [89; acute]); (253, [121; acute]);
    (381, [90; caron]); (382, [122; caron]) ].

Definition decompose (c : N) : pystr :=
  match List.find (λ e, fst e =? c) decompositions with
  | Some e => snd e
  | None => [c]
  end.

(** [int] on an optional sign and ASCII digits. *)
Definition digits_value (s : pystr) : option Z :=
  foldl (λ acc c,
           match acc with
           | Some n => if isdigit_ascii c then Some (10 * n + Z.of_N (c - 48))%Z else None
           | None => None
           end) (Some 0%Z) s.

Definition int_ascii (s : pystr) : result Z :=
  match s with
  | [] => Raise ValueError
  | 45 :: ((_ :: _) as ds) =>
      match digits_value ds with Some n => Return (- n)%Z | None => Raise ValueError end
  | _ =>
      match digits_value s with Some n => Return n | None => Raise ValueError end
  end.

Definition latin_db : UnicodeData :=
  {| nfkd := flat_map decompose;
     isdecimal := isdigit_ascii;
     lower := List.map lower_ascii;
     int := int_ascii |}.

(** ** Sample documents and worlds *)

(** The first cell of the owner row of the specification's example, as
    it reaches the parser: the page is normalised before it is parsed. *)
Definition sample_first_col : pystr :=
  py "Meno a priezvisko Jan Novak Datum narodenia 1.1.1980".

Definition sample_row : tr :=
  [ [sample_first_col]; [py "1.1.1980"]; [py "Slovenska republika"];
    [py "Hlavna 1, 811 01 Bratislava, Slovenska republika"] ].

Definition sample_soup : soup :=
  {| form_groups := [];
     table := Some {| tbody := Some [sample_row] |} |}.

(** A page with an owner table that has no rows. *)
Definition empty_soup : soup :=
  {| form_groups := [];
     table := Some {| tbody := Some [] |} |}.

(** Every page is fetched and parses to [sample_soup]; writes succeed. *)
Definition calm_world : World :=
  {| requests_get := λ _, Return {| status_code := 200; text := py "<html>" |};
     BeautifulSoup := λ _, Return sample_soup;
     fs_write := λ _ _, WriteOk;
     sleep := λ _, Return () |}.

(** As [calm_world], but pages have no owner rows. *)
Definition ownerless_world : World :=
  {| requests_get := λ _, Return {| status_code := 200; text := py "<html>" |};
     BeautifulSoup := λ _, Return empty_soup;
     fs_write := λ _ _, WriteOk;
     sleep := λ _, Return () |}.

(** As [calm_world], but the cache file cannot be opened for writing
    while partner 1 is processed. *)
Definition failing_disk_world : World :=
  {| requests_get := λ _, Return {| status_code := 200; text := py "<html>" |};
     BeautifulSoup := λ _, Return sample_soup;
     fs_write := λ t id,
       match t with
       | CacheFile => if (id =? 1)%Z then OpenFails else WriteOk
       | OutputFile => WriteOk
       end;
     sleep := λ _, Return () |}.

Definition fresh_state : state :=
  {| all_data := []; processed_ids := ∅;
     cache_file := Missing; output_file := Missing; log := [] |}.

(** ** Reading the postal-code pattern

    What the specification calls the postal-code pattern at the start
    of a text: three digits, an optional whitespace character, two
    digits. *)

Definition is_postal_code {U : UnicodeData} (zip : pystr) : Prop :=
  ∃ d1 d2 d3 sp d4 d5,
    zip = [d1; d2; d3] ++ sp ++ [d4; d5] ∧
    forallb isdecimal [d1; d2; d3; d4; d5] = true ∧
    (sp = [] ∨ ∃ w, sp = [w] ∧ isspace w = true).

Definition starts_with_postal_code {U : UnicodeData} (s : pystr) : Prop :=
  ∃ zip rest, s = zip ++ rest ∧ is_postal_code zip.

(** ** The lockstep of the two stores *)

(** Every URL of the processed-ID cache has its Record in the
    collection. *)
Definition lockstep (st : state) : Prop :=
  ∀ u, u ∈ processed_ids st → ∃ r, r ∈ all_data st ∧ SourceURL r = u.

(** [st'] comes after [st]: the collection has only gained Records, and
    every URL cached since has its Record in it. *)
Definition grown (st st' : state) : Prop :=
  (∀ r, r ∈ all_data st → r ∈ all_data st') ∧
  (∀ u, u ∈ processed_ids st' →
        u ∈ processed_ids st ∨ ∃ r, r ∈ all_data st' ∧ SourceURL r = u).

(** Two states with the same collection and the same cache. *)
Definition same_stores (st st' : state) : Prop :=
  all_data st' = all_data st ∧ processed_ids st' = processed_ids st.

(** ** Sample texts *)

Definition shouting_address : pystr :=
  py "Hlavna 1, 811 01 Bratislava, SLOVENSKA REPUBLIKA".

Definition hongkong_address : pystr :=
  py "Queens Road 1, 999 77 Hongkong, Hongkong".


(** The euro sign, U+20AC: not ASCII and without a decomposition. *)
Definition euro : pystr := [8364].

(** The town name Zilina, spelt with U+017D. *)
Definition zilina : pystr := [381] ++ py "ilina".

(** The same cell before normalisation, with U+00E1 in the marker. *)
Definition accented_first_col : pystr :=
  py "Meno a priezvisko Jan Novak D" ++ [225] ++ py "tum narodenia 1.1.1980".

(** ** Start-up and the final save

    [__init__] loads both files, then creates their directories;
    [save_to_json] rewrites the output file once more after the loop.
    Neither is inside a [try]: what they raise ends the program. *)

(** [json.load] of a file, or [empty] when [os.path.exists] is false. *)
Definition load {A} (f : file A) (empty : A) : result A :=
  match f with
  | Missing => Return empty
  | Stored a => Return a
  | Torn => Raise ValueError
  end.

(** [SlovakPartnerScraper(...)]: the two [os.makedirs] calls are given
    by their outcomes (a path without directory part makes none). *)
Definition init (cache : file (list pystr)) (output : file (list record))
    (makedirs_output makedirs_cache : result unit) : result state :=
  ids ← load cache [];
  data ← load output [];
  _ ← makedirs_output;
  _ ← makedirs_cache;
  Return {| all_data := data; processed_ids := list_to_set ids;
            cache_file := cache; output_file := output; log := [] |}.

(** [save_to_json], given how the rewrite of the output file goes. *)
Definition save_to_json (outcome : write_outcome) : prog unit :=
  match outcome with
  | OpenFails => lift (Raise OSError)
  | _ =>
      modify (set_output_file Torn);;
      match outcome with
      | WriteOk => data ← read all_data; modify (set_output_file (Stored data))
      | _ => lift (Raise OSError)
      end
  end.

(** ** Reading the lookups and the table *)

(** The value that a form group gives for a label text: the group's
    label holds the text and the group has a value element. *)
Definition field_of (label_text : pystr) (group : form_group) : option pystr :=
  match label group, p_static group with
  | Some l, Some p =>
      if contains label_text (get_text [] l) then Some (get_text [] p) else None
  | _, _ => None
  end.

(** The link that a form group gives for a label text. *)
Definition link_of (label_text : pystr) (group : form_group) : option pystr :=
  match label group, a_href group with
  | Some l, Some href =>
      if contains label_text (get_text [] l) then Some href else None
  | _, _ => None
  end.

(** Every label of the document reads as ASCII text. *)
Definition ascii_labels (s : soup) : Prop :=
  ∀ group l, group ∈ form_groups s → label group = Some l →
             forallb is_ascii (get_text [] l) = true.

(** A row with at least four cells. *)
Definition wide_row (cols : tr) : bool := bool_decide (4 ≤ length cols)%nat.

(** The four keys of a parsed address. *)
Definition address_keys : gset string :=
  {[ "Address"; "PostalCode"; "City"; "Country" ]}%string.

(** A text that is absent or holds only ASCII characters. *)
Definition ascii_or_null (t : option pystr) : Prop :=
  match t with
  | Some r => forallb is_ascii r = true
  | None => True
  end.

(** Every Record's URL is in the cache, and no two Records share one. *)
Definition unique_sources (st : state) : Prop :=
  NoDup (SourceURL <$> all_data st) ∧
  ∀ r, r ∈ all_data st → SourceURL r ∈ processed_ids st.

(** As [calm_world], but fetching partner 2 gives status 404. *)
Definition patchy_world : World :=
  {| requests_get := λ url,
       if bool_decide (url = detail_url 2)
       then Return {| status_code := 404; text := py "Not Found" |}
       else Return {| status_code := 200; text := py "<html>" |};
     BeautifulSoup := λ _, Return sample_soup;
     fs_write := λ _ _, WriteOk;
     sleep := λ _, Return () |}.

(** A document with two groups for one label, the first without value. *)
Definition two_group_soup : soup :=
  {| form_groups :=
       [ {| label := Some [py " ICO "]; p_static := None; a_href := None |};
         {| label := Some [py "ICO:"]; p_static := Some [py " 123 "; py "456 "];
            a_href := Some (py "/doc/1.pdf") |} ];
     table := None |}.

(** A normalised page with labelled fields and the sample owner table. *)
Definition labelled_soup : soup :=
  {| form_groups :=
       [ {| label := Some [py "Obchodne meno"]; p_static := Some [py "ACME s.r.o."];
            a_href := None |};
         {| label := Some [py "Adresa sidla"];
            p_static := Some [py "Hlavna 1, 811 01 Bratislava"]; a_href := None |};
         {| label := Some [py "Verifikacny dokument (pdf)"]; p_static := None;
            a_href := Some (py "/doc/1.pdf") |} ];
     table := Some {| tbody := Some [sample_row; [[py "too"]; [py "short"]]] |} |}.

(** As [calm_world], with [labelled_soup] as every page. *)
Definition labelled_world : World :=
  {| requests_get := λ _, Return {| status_code := 200; text := py "<html>" |};
     BeautifulSoup := λ _, Return labelled_soup;
     fs_write := λ _ _, WriteOk;
     sleep := λ _, Return () |}.

(** The cache file, when whole, lists only URLs of the cache. *)
Definition cache_file_known (st : state) : Prop :=
  ∀ urls, cache_file st = Stored urls → ∀ u, u ∈ urls → u ∈ processed_ids st.

(** A state reloaded from a cache file with an entry that ends in no
    number. *)
Definition legacy_state : state :=
  {| all_data := []; processed_ids := {[ py "https://rpvs.gov.sk/legacy" ]};
     cache_file := Stored [py "https://rpvs.gov.sk/legacy"];
     output_file := Stored []; log := [] |}.

(** A state in which partners 1 and 2 are cached. *)
Definition resumed_state : state :=
  {| all_data := []; processed_ids := {[ detail_url 1; detail_url 2 ]};
     cache_file := Stored [detail_url 1; detail_url 2];
     output_file := Stored []; log := [] |}.

(** A page whose owner table has no body. *)
Definition bodyless_soup : soup :=
  {| form_groups := []; table := Some {| tbody := None |} |}.

(** As [calm_world], with [bodyless_soup] as every page. *)
Definition bodyless_world : World :=
  {| requests_get := λ _, Return {| status_code := 200; text := py "<html>" |};
     BeautifulSoup := λ _, Return bodyless_soup;
     fs_write := λ _ _, WriteOk;
     sleep := λ _, Return () |}.

(** The owner that the row loop builds from a row: the row has at
    least four cells, the name comes from the first cell (label
    stripped, cut at the marker), the other fields from the next three,
    and the address is parsed. *)
Definition owner_from_row {U : UnicodeData} (cols : tr) (o : owner) : Prop :=
  ∃ c0 c1 c2 c3 more,
    cols = c0 :: c1 :: c2 :: c3 :: more ∧
    NameAndSurname o
      = convert_to_english
          (Some (strip (hd [] (split birth_marker
             (if startswith name_label (get_text [space] c0)
              then strip (replace name_label [] (get_text [space] c0))
              else get_text [space] c0))))) ∧
    DateOfBirth o = convert_to_english (Some (get_text [] c1)) ∧
    Nationality o = convert_to_english (Some (get_text [] c2)) ∧
    AddressOfTheBO o = parse_address (convert_to_english (Some (get_text [] c3))).

(** * Properties *)

(** ** Text of ASCII characters *)

Lemma filter_ascii_id (s : pystr) :
  forallb is_ascii s = true → encode_ascii_ignore s = s.
Proof.
  unfold encode_ascii_ignore.
  induction s as [|c s IH]; simpl; [done|].
  intros [Hc Hs]%andb_true_iff. rewrite Hc. f_equal. auto.
Qed.

Lemma encode_ascii_ignore_ascii (s : pystr) :
  forallb is_ascii (encode_ascii_ignore s) = true.
Proof.
  unfold encode_ascii_ignore.
  induction s as [|c s IH]; simpl; [done|].
  destruct (is_ascii c) eqn:Hc; simpl; [rewrite Hc|]; done.
Qed.

Lemma encode_ascii_ignore_nil (s : pystr) :
  encode_ascii_ignore s = [] ↔ existsb is_ascii s = false.
Proof.
  unfold encode_ascii_ignore.
  induction s as [|c s IH]; simpl; [done|].
  destruct (is_ascii c); simpl; [split; discriminate | exact IH].
Qed.

(** ** The concrete tables satisfy the laws *)

Lemma decompose_ascii (c : N) : is_ascii c = true → decompose c = [c].
Proof.
  unfold is_ascii. intros Hc%N.ltb_lt. unfold decompose.
  assert (Hnone : ∀ l : list (N * pystr), Forall (λ e, 128 ≤ fst e) l →
            List.find (λ e, fst e =? c) l = None).
  { induction 1 as [|e l He _ IH]; simpl; [done|].
    destruct (N.eqb_spec (fst e) c); [lia | done]. }
  rewrite Hnone; [done|].
  unfold decompositions. repeat (constructor; [simpl; lia|]). constructor.
Qed.

Lemma latin_nfkd_ascii (s : pystr) :
  forallb is_ascii s = true → flat_map decompose s = s.
Proof.
  induction s as [|c s IH]; simpl; [done|].
  intros [Hc Hs]%andb_true_iff.
  rewrite (decompose_ascii c Hc), (IH Hs). done.
Qed.

Lemma isdigit_not_space (c : N) : isdigit_ascii c = true → isspace c = false.
Proof.
  unfold isdigit_ascii, isspace.
  intros [H1%N.leb_le H2%N.leb_le]%andb_true_iff.
  repeat match goal with
  | |- context [?a <=? ?b] => destruct (N.leb_spec a b); try lia
  | |- context [?a =? ?b] => destruct (N.eqb_spec a b); try lia
  end; done.
Qed.

Lemma latin_laws : UnicodeLaws latin_db.
Proof.
  split; simpl.
  - exact latin_nfkd_ascii.
  - done.
  - exact isdigit_not_space.
  - done.
Qed.

(** ** TextNormalizer *)

Section NormalizerFacts.
Context {U : UnicodeData}.

Lemma convert_to_english_Some (t : pystr) :
  t ≠ [] → convert_to_english (Some t) = Some (encode_ascii_ignore (nfkd t)).
Proof. destruct t; done. Qed.

Lemma convert_to_english_inv (T : option pystr) (r : pystr) :
  convert_to_english T = Some r →
  ∃ t, T = Some t ∧ t ≠ [] ∧ r = encode_ascii_ignore (nfkd t).
Proof.
  destruct T as [[|c t]|]; simpl; try discriminate.
  intros [= <-]. eauto.
Qed.

Lemma convert_to_english_fixes_ascii `{!UnicodeLaws U} (t : pystr) :
  t ≠ [] → forallb is_ascii t = true → convert_to_english (Some t) = Some t.
Proof.
  intros Hne Ht. rewrite convert_to_english_Some by done.
  rewrite nfkd_ascii by done. by rewrite filter_ascii_id.
Qed.

End NormalizerFacts.

(** C1, as stated, fails: the normal form of the euro sign is the empty
    string, and normalising the empty string gives [None]. *)
Lemma convert_to_english_not_idempotent :
  convert_to_english (U:=latin_db) (Some euro) = Some [] ∧
  convert_to_english (U:=latin_db) (convert_to_english (U:=latin_db) (Some euro))
    ≠ convert_to_english (U:=latin_db) (Some euro).
Proof. split; [reflexivity | discriminate]. Qed.

(** C1, amended: [convert_to_english] maps [None] to [None], and
    normalising twice gives the same as normalising once unless the
    first result is the empty string, in which case the second result
    is [None]. *)
Theorem convert_to_english_idempotent_unless_empty
    (U : UnicodeData) (L : UnicodeLaws U) (T : option pystr) :
  convert_to_english None = None ∧
  (convert_to_english T ≠ Some [] →
   convert_to_english (convert_to_english T) = convert_to_english T) ∧
  (convert_to_english T = Some [] →
   convert_to_english (convert_to_english T) = None).
Proof.
  split; [reflexivity|]. split.
  - destruct (convert_to_english T) as [r|] eqn:HT; [|reflexivity].
    intros Hr. apply convert_to_english_inv in HT as (t & _ & _ & ->).
    apply convert_to_english_fixes_ascii; [intros E; apply Hr; by rewrite E|].
    apply encode_ascii_ignore_ascii.
  - intros ->. reflexivity.
Qed.

Lemma convert_to_english_idempotent_unless_empty_witness :
  convert_to_english (U:=latin_db) (convert_to_english (U:=latin_db) (Some zilina))
    = convert_to_english (U:=latin_db) (Some zilina).
Proof.
  apply (proj1 (proj2
    (convert_to_english_idempotent_unless_empty latin_db latin_laws (Some zilina)))).
  vm_compute. discriminate.
Defined.

(** C10, as stated, fails in its last part: the euro sign normalises to
    a non-null result that is the empty string, the euro sign holds no
    ASCII character, and no text with an ASCII character normalises to
    the empty string. *)
Lemma convert_to_english_empty_result :
  convert_to_english (U:=latin_db) (Some euro) = Some [] ∧
  existsb is_ascii euro = false ∧
  ∀ T', existsb is_ascii T' = true →
        convert_to_english (U:=latin_db) (Some T') ≠ Some [].
Proof.
  split; [reflexivity|]. split; [reflexivity|].
  intros T' HT' Heq.
  apply convert_to_english_inv in Heq as (t & [= <-] & _ & Hnil).
  symmetry in Hnil. apply encode_ascii_ignore_nil in Hnil.
  simpl in Hnil. clear -HT' Hnil.
  induction T' as [|c T' IH]; simpl in *; [done|].
  rewrite existsb_app in Hnil. apply orb_false_iff in Hnil as [Hc Hrest].
  destruct (is_ascii c) eqn:Hasc; simpl in HT'.
  - rewrite (decompose_ascii c Hasc) in Hc. simpl in Hc. rewrite Hasc in Hc. done.
  - auto.
Qed.

(** C10, amended: [convert_to_english] maps the empty string and [None]
    to [None]; a non-null result comes from a non-empty text, holds only
    ASCII characters, and is the empty string exactly when the NFKD form
    of that text holds no ASCII character. *)
Theorem convert_to_english_falsy_and_results (U : UnicodeData) (T : option pystr) :
  (T = None ∨ T = Some [] → convert_to_english T = None) ∧
  (∀ r, convert_to_english T = Some r →
     ∃ t, T = Some t ∧ t ≠ [] ∧ forallb is_ascii r = true ∧
          (r = [] ↔ existsb is_ascii (nfkd t) = false)).
Proof.
  split.
  - intros [-> | ->]; reflexivity.
  - intros r (t & -> & Ht & ->)%convert_to_english_inv.
    exists t. repeat split; try done.
    + apply encode_ascii_ignore_ascii.
    + apply encode_ascii_ignore_nil.
    + apply encode_ascii_ignore_nil.
Qed.

Lemma convert_to_english_falsy_and_results_witness :
  convert_to_english (U:=latin_db) (Some []) = None ∧
  ∃ t, Some euro = Some t ∧ t ≠ [] ∧ forallb is_ascii [] = true ∧
       (@nil N = [] ↔ existsb is_ascii (nfkd (UnicodeData:=latin_db) t) = false).
Proof.
  split.
  - apply (proj1 (convert_to_english_falsy_and_results latin_db (Some []))).
    right. reflexivity.
  - apply (proj2 (convert_to_english_falsy_and_results latin_db (Some euro)) []).
    reflexivity.
Defined.

(** ** AddressParser *)

(** C3: for the empty string and for [None] the address parser returns
    the same value, the empty dict, in which the address line, the
    postal code, the city and the country (and any other key) are all
    null. *)
Theorem parse_address_empty_null (U : UnicodeData) :
  parse_address (Some []) = parse_address None ∧
  parse_address None = ∅ ∧
  (∀ k, get (parse_address None) k = None) ∧
  (∀ k, get (parse_address (Some [])) k = None).
Proof.
  repeat split; intros k; unfold get; simpl; by rewrite lookup_empty.
Qed.

(** ** PageExtractor: the owner table *)

Lemma sample_name_part :
  strip (hd [] (split birth_marker
    (if startswith name_label sample_first_col
     then strip (replace name_label [] sample_first_col)
     else sample_first_col)))
  = py "Jan Novak Datum narodenia 1.1.1980".
Proof. vm_compute. reflexivity. Qed.

(** C2, evaluated on the code: for every document with one owner row of
    at least four cells whose first cell reads
    'Meno a priezvisko Jan Novak Datum narodenia 1.1.1980', the parser
    returns one owner whose name is
    'Jan Novak Datum narodenia 1.1.1980', not 'Jan Novak': the label is
    stripped but the text is not cut at the date-of-birth marker,
    because the marker the code looks for is spelt with U+00E1. *)
Theorem parse_bo_table_sample_name
    (U : UnicodeData) (L : UnicodeLaws U)
    (groups : list form_group) (c0 c1 c2 c3 : element) (more : list element) :
  get_text [space] c0 = sample_first_col →
  ∃ bo,
    parse_bo_table {| form_groups := groups;
                      table := Some {| tbody := Some [c0 :: c1 :: c2 :: c3 :: more] |} |}
      = Return [bo] ∧
    row_name bo = Some (py "Jan Novak Datum narodenia 1.1.1980") ∧
    row_name bo ≠ Some (py "Jan Novak").
Proof.
  intros Hc0. eexists. split; [reflexivity|].
  cbn [row_name]. rewrite Hc0, sample_name_part.
  rewrite convert_to_english_fixes_ascii by (vm_compute; done).
  split; [reflexivity | discriminate].
Qed.

Lemma parse_bo_table_sample_name_witness :
  ∃ bo,
    parse_bo_table (U:=latin_db) sample_soup = Return [bo] ∧
    row_name bo = Some (py "Jan Novak Datum narodenia 1.1.1980") ∧
    row_name bo ≠ Some (py "Jan Novak").
Proof.
  apply (parse_bo_table_sample_name latin_db latin_laws [] [sample_first_col]).
  vm_compute. reflexivity.
Defined.

(** Had the cell kept its diacritics, the cut would have been made; but
    [scrape_partner] normalises the page before it is parsed. *)
Lemma parse_bo_row_accented (c1 c2 c3 : element) :
  row_name <$> parse_bo_row (U:=latin_db) [[accented_first_col]; c1; c2; c3]
  = [Some (py "Jan Novak")].
Proof. vm_compute. reflexivity. Qed.

Lemma accented_first_col_normalised :
  convert_to_english (U:=latin_db) (Some accented_first_col) = Some sample_first_col.
Proof. vm_compute. reflexivity. Qed.

Section AddressFacts.
Context {U : UnicodeData}.

Lemma two_digits_Some (s : pystr) :
  two_digits s ≠ None ↔
  ∃ d4 d5 rest, s = d4 :: d5 :: rest ∧ isdecimal d4 = true ∧ isdecimal d5 = true.
Proof.
  unfold two_digits. split.
  - destruct s as [|d4 [|d5 rest]]; try done.
    destruct (isdecimal d4) eqn:H4, (isdecimal d5) eqn:H5; try done.
    intros _. by exists d4, d5, rest.
  - intros (d4 & d5 & rest & -> & -> & ->). done.
Qed.

Lemma zip_group_Some (s : pystr) :
  zip_group s ≠ None ↔ starts_with_postal_code s.
Proof.
  unfold zip_group, starts_with_postal_code, is_postal_code. split.
  - destruct s as [|d1 [|d2 [|d3 rest]]]; try done.
    destruct (isdecimal d1) eqn:H1, (isdecimal d2) eqn:H2,
             (isdecimal d3) eqn:H3; try done. simpl.
    destruct rest as [|w rest1]; [done|].
    destruct (isspace w) eqn:Hw.
    + destruct (two_digits rest1) as [[dd r]|] eqn:Hsp.
      * intros _.
        assert (two_digits rest1 ≠ None) as Hd by congruence.
        apply two_digits_Some in Hd as (d4 & d5 & rest & -> & H4 & H5).
        exists [d1; d2; d3; w; d4; d5], rest. split; [done|].
        exists d1, d2, d3, [w], d4, d5. simpl.
        rewrite H1, H2, H3, H4, H5. eauto 10.
      * destruct (two_digits (w :: rest1)) as [[dd r]|] eqn:Hns; [|done].
        intros _.
        assert (two_digits (w :: rest1) ≠ None) as Hd by congruence.
        apply two_digits_Some in Hd as (d4 & d5 & rest & [= -> ->] & H4 & H5).
        exists [d1; d2; d3; d4; d5], rest. split; [done|].
        exists d1, d2, d3, [], d4, d5. simpl.
        rewrite H1, H2, H3, H4, H5. eauto 10.
    + destruct (two_digits (w :: rest1)) as [[dd r]|] eqn:Hns; [|done].
      intros _.
      assert (two_digits (w :: rest1) ≠ None) as Hd by congruence.
      apply two_digits_Some in Hd as (d4 & d5 & rest & [= -> ->] & H4 & H5).
      exists [d1; d2; d3; d4; d5], rest. split; [done|].
      exists d1, d2, d3, [], d4, d5. simpl.
      rewrite H1, H2, H3, H4, H5. eauto 10.
  - intros (zip & rest & -> & d1 & d2 & d3 & sp & d4 & d5 & -> & Hd & Hsp).
    simpl in Hd. repeat (apply andb_true_iff in Hd as [? Hd]).
    destruct Hsp as [-> | (w & -> & Hw)]; simpl.
    + repeat match goal with H : isdecimal _ = true |- _ => rewrite H; clear H end.
      simpl. destruct (isspace d4); [|done].
      by destruct rest as [|? [|? ?]]; simpl; repeat case_match.
    + repeat match goal with H : isdecimal _ = true |- _ => rewrite H; clear H end.
      simpl. rewrite Hw. done.
Qed.

Lemma zip_match_None (s : pystr) :
  zip_match s = None ↔ ¬ starts_with_postal_code s.
Proof.
  rewrite <- zip_group_Some. unfold zip_match.
  destruct (zip_group s) as [[g1 rest]|].
  - split; [done|]. intros H. exfalso. by apply H.
  - split; [|done]. intros _ H. by apply H.
Qed.

Lemma get_fallback_address (address : pystr) :
  get (fallback_address address) "Address" = Some address ∧
  get (fallback_address address) "PostalCode" = None ∧
  get (fallback_address address) "City" = None ∧
  get (fallback_address address) "Country" = None.
Proof. unfold get, fallback_address. repeat split; by simplify_map_eq. Qed.

End AddressFacts.

(** C6: the address parser is a total function (no step of it can raise
    on a text), and for every non-empty text that has fewer than two
    comma segments, or whose tail does not start with the postal-code
    pattern, it returns the fallback: the address line is the trimmed
    raw text, and postal code, city and country are null. *)
Theorem parse_address_fallback (U : UnicodeData) (full_address : pystr) :
  full_address ≠ [] →
  (length (List.map strip (split [comma] (strip full_address))) < 2)%nat ∨
  ¬ starts_with_postal_code
      (join (py ", ") (tl (List.map strip (split [comma] (strip full_address))))) →
  parse_address (Some full_address) = fallback_address (strip full_address) ∧
  get (parse_address (Some full_address)) "Address" = Some (strip full_address) ∧
  get (parse_address (Some full_address)) "PostalCode" = None ∧
  get (parse_address (Some full_address)) "City" = None ∧
  get (parse_address (Some full_address)) "Country" = None.
Proof.
  intros Hne Hcase.
  assert (parse_address (Some full_address) = fallback_address (strip full_address)) as ->.
  { unfold parse_address. destruct full_address as [|c0 t]; [done|].
    destruct (List.map strip (split [comma] (strip (c0 :: t)))) as [|p [|q r]];
      try reflexivity.
    destruct Hcase as [Hlen | Hzip]; [simpl in Hlen; lia|].
    apply zip_match_None in Hzip. simpl tl in Hzip. by rewrite Hzip. }
  split; [reflexivity | apply get_fallback_address].
Qed.

Lemma parse_address_fallback_witness :
  parse_address (U:=latin_db) (Some (py "Hlavna 1, Bratislava"))
    = fallback_address (py "Hlavna 1, Bratislava").
Proof.
  apply (parse_address_fallback latin_db (py "Hlavna 1, Bratislava")).
  - discriminate.
  - right. apply zip_match_None. vm_compute. reflexivity.
Defined.

(** ** Facts about the string operations *)

Section StripFacts.
Variable p : N → bool.

Lemma lstrip_by_length (s : pystr) : (length (lstrip_by p s) ≤ length s)%nat.
Proof.
  induction s as [|c s IH]; simpl; [lia|].
  destruct (p c); simpl; lia.
Qed.

Lemma rstrip_by_length (s : pystr) : (length (rstrip_by p s) ≤ length s)%nat.
Proof.
  unfold rstrip_by. rewrite length_rev.
  etransitivity; [apply lstrip_by_length|]. by rewrite length_rev.
Qed.

Lemma lstrip_by_same_length (s : pystr) :
  length (lstrip_by p s) = length s → lstrip_by p s = s.
Proof.
  destruct s as [|c s]; simpl; [done|].
  destruct (p c); [|done].
  pose proof (lstrip_by_length s). lia.
Qed.

Lemma lstrip_by_id_head (c : N) (s : pystr) :
  lstrip_by p (c :: s) = c :: s → p c = false.
Proof.
  simpl. destruct (p c); [|done].
  intros H. pose proof (lstrip_by_length s) as Hlen.
  rewrite H in Hlen. simpl in Hlen. lia.
Qed.

Lemma lstrip_by_keep (c : N) (s : pystr) :
  p c = false → lstrip_by p (c :: s) = c :: s.
Proof. simpl. by intros ->. Qed.

Lemma lstrip_by_drop (a x : pystr) :
  forallb p a = true → lstrip_by p (a ++ x) = lstrip_by p x.
Proof.
  induction a as [|c a IH]; simpl; [done|].
  intros [-> Ha]%andb_true_iff. auto.
Qed.

Lemma lstrip_by_id_app (a x : pystr) :
  a ≠ [] → lstrip_by p a = a → lstrip_by p (a ++ x) = a ++ x.
Proof.
  destruct a as [|c a]; [done|]. intros _ H%lstrip_by_id_head.
  simpl. by rewrite H.
Qed.

Lemma rstrip_by_id_rev (s : pystr) :
  rstrip_by p s = s → lstrip_by p (rev s) = rev s.
Proof.
  unfold rstrip_by. intros H.
  rewrite <- H at 2. by rewrite rev_involutive.
Qed.

Lemma rstrip_by_of_rev (s : pystr) :
  lstrip_by p (rev s) = rev s → rstrip_by p s = s.
Proof. unfold rstrip_by. intros ->. apply rev_involutive. Qed.

Lemma rstrip_by_id_app (x b : pystr) :
  b ≠ [] → rstrip_by p b = b → rstrip_by p (x ++ b) = x ++ b.
Proof.
  intros Hb H%rstrip_by_id_rev. apply rstrip_by_of_rev.
  rewrite rev_app_distr. apply lstrip_by_id_app; [|done].
  intros Hnil. apply Hb. by rewrite <- (rev_involutive b), Hnil.
Qed.

Lemma rstrip_by_drop (x b : pystr) :
  forallb p b = true → rstrip_by p (x ++ b) = rstrip_by p x.
Proof.
  intros Hb. unfold rstrip_by. rewrite rev_app_distr.
  rewrite lstrip_by_drop; [done|].
  rewrite forallb_forall in *. intros c Hc. apply Hb. by apply in_rev.
Qed.

(** A text equal to its own strip starts and ends clean. *)
Lemma strip_by_id_inv (s : pystr) :
  strip_by p s = s → lstrip_by p s = s ∧ rstrip_by p s = s.
Proof.
  unfold strip_by. intros H.
  assert (lstrip_by p s = s) as Hl.
  { apply lstrip_by_same_length.
    pose proof (lstrip_by_length s).
    pose proof (rstrip_by_length (lstrip_by p s)) as Hr.
    rewrite H in Hr. lia. }
  split; [done|]. by rewrite Hl in H.
Qed.

Lemma strip_by_id (s : pystr) :
  lstrip_by p s = s → rstrip_by p s = s → strip_by p s = s.
Proof. unfold strip_by. by intros -> ->. Qed.

(** Clean ends are kept by putting text in between. *)
Lemma strip_by_id_sandwich (a m b : pystr) :
  a ≠ [] → b ≠ [] → lstrip_by p a = a → rstrip_by p b = b →
  strip_by p (a ++ m ++ b) = a ++ m ++ b.
Proof.
  intros Ha Hb Hla Hrb. apply strip_by_id.
  - by apply lstrip_by_id_app.
  - rewrite (assoc_L (++)). by apply rstrip_by_id_app.
Qed.

End StripFacts.

Lemma startswith_spec (p s : pystr) :
  startswith p s = true ↔ ∃ x, s = p ++ x.
Proof.
  revert s. induction p as [|a p IH]; intros s; simpl.
  - split; eauto.
  - destruct s as [|b s].
    + split; [done | by intros [x Hx]].
    + rewrite andb_true_iff, IH, N.eqb_eq. split.
      * intros [-> [x ->]]. eauto.
      * intros [x [= -> ->]]. eauto.
Qed.

Lemma startswith_refl (p : pystr) : startswith p p = true.
Proof. apply startswith_spec. exists []. by rewrite app_nil_r. Qed.

Lemma contains_spec (p s : pystr) :
  contains p s = true ↔ ∃ a b, s = a ++ p ++ b.
Proof.
  induction s as [|c s IH]; simpl.
  - rewrite orb_false_r, startswith_spec. split.
    + intros [x Hx]. by exists [], x.
    + intros (a & b & Hab). destruct a; [by exists b|done].
  - rewrite orb_true_iff, startswith_spec, IH. split.
    + intros [[x Hx] | (a & b & ->)]; [by exists [], x | by exists (c :: a), b].
    + intros (a & b & Hab). destruct a as [|a0 a]; simpl in Hab.
      * left. eauto.
      * right. injection Hab as -> ->. eauto.
Qed.

Lemma contains_map (f : N → N) (p s : pystr) :
  contains p s = true → contains (List.map f p) (List.map f s) = true.
Proof.
  rewrite !contains_spec. intros (a & b & ->).
  exists (List.map f a), (List.map f b). by rewrite !List.map_app.
Qed.

(** An occurrence of [p] in a text cut by a character that [p] does not
    hold lies on one side of the cut. *)
Lemma occurrence_beside (sep : N) (p x y a b : pystr) :
  sep ∉ p → x ++ sep :: y = a ++ p ++ b →
  (∃ b', x = a ++ p ++ b') ∨ (∃ a', y = a' ++ p ++ b).
Proof.
  intros Hsep. revert x. induction a as [|c a IH]; intros x Heq; simpl in Heq.
  - symmetry in Heq. apply app_eq_inv in Heq as [(k & Hp & Hk) | (k & Hx & Hk)].
    + destruct k as [|k0 k]; simpl in Hk.
      * left. exists []. rewrite app_nil_r in *. done.
      * injection Hk as <- _. exfalso. apply Hsep. rewrite Hp.
        apply elem_of_app. right. by left.
    + left. by exists k.
  - destruct x as [|x0 x]; simpl in Heq.
    + injection Heq as -> ->. right. eauto.
    + injection Heq as -> Heq. apply IH in Heq as [[b' ->] | [a' ->]]; eauto.
Qed.

Lemma contains_beside (sep : N) (p x y : pystr) :
  sep ∉ p → contains p (x ++ sep :: y) = true →
  contains p x = true ∨ contains p y = true.
Proof.
  intros Hsep (a & b & Heq)%contains_spec.
  apply occurrence_beside in Heq as [[b' ->] | [a' ->]]; [| |done].
  - left. apply contains_spec. eauto.
  - right. apply contains_spec. eauto.
Qed.

Lemma split_comma_free (sep : N) (s : pystr) :
  sep ∉ s → split [sep] s = [s].
Proof.
  unfold split. induction s as [|c s IH]; [done|].
  intros [Hc Hs]%not_elem_of_cons. simpl.
  destruct (N.eqb_spec sep c); [done|]. simpl. by rewrite IH.
Qed.

Lemma split_at_first (sep : N) (a b : pystr) :
  sep ∉ a → split [sep] (a ++ sep :: b) = a :: split [sep] b.
Proof.
  unfold split. induction a as [|c a IH]; simpl.
  - intros _. by rewrite N.eqb_refl.
  - intros [Hc Ha]%not_elem_of_cons.
    destruct (N.eqb_spec sep c); [done|]. simpl. by rewrite IH.
Qed.

(** Splitting a comma-and-space joined list of comma-free segments. *)
Lemma split_join (a seg : pystr) (segs : list pystr) :
  comma ∉ a → Forall (λ s, comma ∉ s) (seg :: segs) →
  split [comma] (a ++ join (py ", ") (seg :: segs))
  = (a ++ seg) :: List.map (λ s, space :: s) segs.
Proof.
  revert a seg. induction segs as [|seg' segs IH]; intros a seg Ha Hsegs.
  - simpl. apply split_comma_free.
    apply not_elem_of_app. split; [done|]. by inversion Hsegs.
  - inversion Hsegs as [|? ? Hseg Hrest]; subst.
    change (join (py ", ") (seg :: seg' :: segs))
      with (seg ++ comma :: ([space] ++ join (py ", ") (seg' :: segs))).
    rewrite (assoc_L (++)), split_at_first.
    + rewrite IH; [done| |done].
      apply not_elem_of_cons. split; [done | apply not_elem_of_nil].
    + by apply not_elem_of_app.
Qed.

Lemma join_prefix (sep a seg : pystr) (segs : list pystr) :
  join sep ((a ++ seg) :: segs) = a ++ join sep (seg :: segs).
Proof. destruct segs; simpl; [done|]. by rewrite <- (assoc_L (++)). Qed.

Lemma span_while_all (q : N → bool) (s : pystr) :
  forallb q s = true → span_while q s = s.
Proof.
  induction s as [|c s IH]; simpl; [done|].
  intros [-> Hs]%andb_true_iff. f_equal. auto.
Qed.

Lemma replace_nonempty (old new s : pystr) :
  old ≠ [] → replace old new s = replace_from old new s 0.
Proof. by destruct old. Qed.

Lemma replace_from_skip (old new s : pystr) (k : nat) :
  (length s ≤ k)%nat → replace_from old new s k = [].
Proof.
  revert k. induction s as [|c s IH]; intros k; simpl; [done|].
  destruct k; [lia|]. intros. apply IH. lia.
Qed.

Lemma replace_from_self (old : pystr) :
  old ≠ [] → replace_from old [] old 0 = [].
Proof.
  destruct old as [|c o]; [done|]. intros _.
  change (replace_from (c :: o) [] (c :: o) 0)
    with (if startswith (c :: o) (c :: o)
          then [] ++ replace_from (c :: o) [] o (length (c :: o) - 1)
          else c :: replace_from (c :: o) [] o 0).
  rewrite startswith_refl. simpl. apply replace_from_skip. lia.
Qed.

(** Text in front of which no occurrence of [old] starts is kept. *)
Lemma replace_from_keep (old a b : pystr) :
  (∀ a1 a2, a = a1 ++ a2 → a2 ≠ [] → startswith old (a2 ++ b) = false) →
  replace_from old [] (a ++ b) 0 = a ++ replace_from old [] b 0.
Proof.
  induction a as [|c a IH]; intros Hno; [done|].
  change (replace_from old [] ((c :: a) ++ b) 0)
    with (if startswith old ((c :: a) ++ b)
          then [] ++ replace_from old [] (a ++ b) (length old - 1)
          else c :: replace_from old [] (a ++ b) 0).
  rewrite (Hno [] (c :: a)) by done. simpl. f_equal.
  apply IH. intros a1 a2 -> Ha2. by apply (Hno (c :: a1) a2).
Qed.

Lemma join_last (sep seg : pystr) (segs : list pystr) :
  ∃ front back, join sep (seg :: segs) = front ++ back ∧ back ∈ seg :: segs.
Proof.
  revert seg. induction segs as [|seg' segs IH]; intros seg.
  - exists [], seg. split; [done | by left].
  - destruct (IH seg') as (front & back & Heq & Hin).
    exists (seg ++ sep ++ front), back. split.
    + change (join sep (seg :: seg' :: segs))
        with (seg ++ sep ++ join sep (seg' :: segs)).
      by rewrite Heq, <- !(assoc_L (++)).
    + by right.
Qed.

Lemma join_free (c : N) (sep : pystr) (segs : list pystr) :
  c ∉ sep → Forall (λ s, c ∉ s) segs → c ∉ join sep segs.
Proof.
  intros Hsep. induction 1 as [|seg segs Hseg Hsegs IH]; [apply not_elem_of_nil|].
  destruct segs as [|seg' segs]; [done|].
  change (join sep (seg :: seg' :: segs))
    with (seg ++ sep ++ join sep (seg' :: segs)).
  rewrite !not_elem_of_app. auto.
Qed.

Lemma forallb_not_elem (c : N) (s : pystr) :
  c ∉ s → forallb (λ x, negb (x =? c)) s = true.
Proof.
  induction s as [|x s IH]; [done|].
  intros [Hx Hs]%not_elem_of_cons. simpl.
  destruct (N.eqb_spec x c); [congruence|]. auto.
Qed.

Lemma strip_space_cons (s : pystr) : strip (space :: s) = strip s.
Proof. reflexivity. Qed.

Section ShapeFacts.
Context {U : UnicodeData} {L : UnicodeLaws U}.

Lemma comma_not_decimal : isdecimal comma = false.
Proof. by rewrite isdecimal_ascii. Qed.

Lemma postal_code_facts (zip : pystr) :
  is_postal_code zip →
  zip ≠ [] ∧ lstrip_by isspace zip = zip ∧ rstrip_by isspace zip = zip ∧
  comma ∉ zip.
Proof.
  intros (d1 & d2 & d3 & sp & d4 & d5 & -> & Hd & Hsp).
  simpl in Hd. repeat (apply andb_true_iff in Hd as [? Hd]).
  assert (∀ d, isdecimal d = true → comma ≠ d) as Hcomma.
  { intros d Hdec <-. by rewrite comma_not_decimal in Hdec. }
  split; [simpl; discriminate|]. split; [|split].
  - apply lstrip_by_keep. by apply isdecimal_not_space.
  - apply rstrip_by_of_rev. rewrite !rev_app_distr. simpl.
    by rewrite (isdecimal_not_space d5).
  - destruct Hsp as [-> | (w & -> & Hw)]; simpl;
      repeat (apply not_elem_of_cons; split; [auto|]);
      try apply not_elem_of_nil.
    intros <-. vm_compute in Hw. done.
Qed.

Lemma zip_group_exact (zip rest : pystr) :
  is_postal_code zip → zip_group (zip ++ rest) = Some (zip, rest).
Proof.
  intros (d1 & d2 & d3 & sp & d4 & d5 & -> & Hd & Hsp).
  simpl in Hd. repeat (apply andb_true_iff in Hd as [? Hd]).
  destruct Hsp as [-> | (w & -> & Hw)]; simpl.
  - repeat match goal with H : isdecimal _ = true |- _ => rewrite H end.
    simpl. by rewrite (isdecimal_not_space d4).
  - repeat match goal with H : isdecimal _ = true |- _ => rewrite H end.
    simpl. by rewrite Hw.
Qed.

Lemma parse_address_unfold (full : pystr) :
  full ≠ [] →
  parse_address (Some full)
  = match List.map strip (split [comma] (strip full)) with
    | street_part :: ((_ :: _) as rest) =>
        match zip_match (join (py ", ") rest) with
        | Some (g1, g2) =>
            let '(country_found, city_country) :=
              detect_country countries (strip g2) in
            {[ "Address" := Some street_part;
               "PostalCode" := Some (strip g1);
               "City" := match city_country with [] => None | _ => Some city_country end;
               "Country" := country_found ]}%string
        | None => fallback_address (strip full)
        end
    | _ => fallback_address (strip full)
    end.
Proof. by destruct full. Qed.

(** An address written as a line, a postal code and comma-separated
    trimmed segments is split by the parser into exactly these parts;
    what remains is the country detection on the segments. *)
Lemma parse_address_shape (line zip seg : pystr) (segs : list pystr) :
  strip line = line → comma ∉ line →
  is_postal_code zip →
  Forall (λ s, s ≠ [] ∧ strip s = s ∧ (comma ∉ s) ∧ (newline ∉ s)) (seg :: segs) →
  parse_address
    (Some (line ++ py ", " ++ zip ++ [space] ++ join (py ", ") (seg :: segs)))
  = {[ "Address" := Some line;
       "PostalCode" := Some zip;
       "City" := match (detect_country countries (join (py ", ") (seg :: segs))).2 with
                 | [] => None
                 | _ :: _ => Some (detect_country countries (join (py ", ") (seg :: segs))).2
                 end;
       "Country" := (detect_country countries (join (py ", ") (seg :: segs))).1 ]}%string.
Proof.
  intros Hline Hlc Hzip Hsegs.
  destruct (postal_code_facts zip Hzip) as (Hzne & Hzl & Hzr & Hzc).
  apply strip_by_id_inv in Hline as [Hll Hlr].
  set (tail := join (py ", ") (seg :: segs)).
  assert (Forall (λ s, comma ∉ s) (seg :: segs)) as Hcommas.
  { eapply Forall_impl; [exact Hsegs|]. by intros s (_ & _ & Hs & _). }
  assert (seg ≠ [] ∧ lstrip_by isspace seg = seg) as [Hsne Hsl].
  { inversion Hsegs as [|? ? (? & [? ?]%strip_by_id_inv & _) _]. done. }
  destruct (join_last (py ", ") seg segs) as (front & back & Hback & Hin).
  fold tail in Hback.
  assert (back ≠ [] ∧ rstrip_by isspace back = back) as [Hbne Hbr].
  { rewrite Forall_forall in Hsegs.
    destruct (Hsegs back Hin) as (? & [? ?]%strip_by_id_inv & _). done. }
  assert (lstrip_by isspace tail = tail) as Htl.
  { unfold tail. destruct segs; [done|].
    change (join (py ", ") (seg :: p :: segs))
      with (seg ++ py ", " ++ join (py ", ") (p :: segs)).
    by apply lstrip_by_id_app. }
  assert (rstrip_by isspace tail = tail) as Htr.
  { rewrite Hback. by apply rstrip_by_id_app. }
  assert (tail ≠ []) as Htne.
  { rewrite Hback. intros [_ ?]%app_eq_nil. done. }
  (* the whole text is already trimmed *)
  set (full := line ++ py ", " ++ zip ++ [space] ++ tail).
  assert (strip full = full) as Hfull.
  { apply strip_by_id.
    - destruct line as [|c line]; [reflexivity|].
      by apply (lstrip_by_id_app isspace (c :: line)).
    - unfold full. rewrite Hback, !(assoc_L (++)).
      by apply rstrip_by_id_app. }
  (* its comma segments *)
  assert (List.map strip (split [comma] full)
          = line :: (zip ++ [space] ++ seg) :: segs) as Hparts.
  { unfold full.
    change (line ++ py ", " ++ zip ++ [space] ++ tail)
      with (line ++ comma :: ([space] ++ zip ++ [space] ++ tail)).
    rewrite split_at_first by done.
    rewrite !(assoc_L (++) _ _ tail). unfold tail. rewrite split_join; [|..|done].
    2:{ rewrite !not_elem_of_app. repeat split; try done;
        (apply not_elem_of_cons; split; [done | apply not_elem_of_nil]). }
    simpl List.map. f_equal; [by apply strip_by_id|]. f_equal.
    - rewrite <- !(assoc_L (++)). simpl. rewrite strip_space_cons.
      apply (strip_by_id_sandwich isspace zip [space] seg); try done.
      inversion Hsegs as [|? ? (? & [? ?]%strip_by_id_inv & _) _]. done.
    - clear -Hsegs. inversion Hsegs as [|? ? _ Hrest]; subst. clear Hsegs.
      induction Hrest as [|s segs (_ & Hs & _) _ IH]; [done|].
      simpl. rewrite strip_space_cons, Hs. by f_equal. }
  (* the postal-code match on the tail *)
  assert (zip_match (zip ++ [space] ++ tail) = Some (zip, tail)) as Hmatch.
  { unfold zip_match. rewrite zip_group_exact by done.
    simpl. rewrite Htl. rewrite span_while_all; [done|].
    apply forallb_not_elem. unfold tail. apply join_free.
    - repeat (apply not_elem_of_cons; split; [done|]). apply not_elem_of_nil.
    - eapply Forall_impl; [exact Hsegs|]. by intros s (_ & _ & _ & Hs). }
  rewrite parse_address_unfold.
  2:{ intros [_ [=]]%app_eq_nil. }
  fold tail. fold full. rewrite Hfull, Hparts.
  rewrite 2!join_prefix. fold tail. rewrite Hmatch.
  rewrite (strip_by_id isspace zip Hzl Hzr : strip zip = zip).
  rewrite (strip_by_id isspace tail Htl Htr : strip tail = tail).
  by destruct (detect_country countries tail) as [country city].
Qed.

End ShapeFacts.

(** ** Facts about the gazetteer *)

Lemma countries_NoDup : NoDup countries.
Proof. apply (bool_decide_unpack _). vm_compute. exact I. Qed.

Lemma countries_facts (c : pystr) :
  c ∈ countries →
  forallb is_ascii c = true ∧ c ≠ [] ∧ strip c = c ∧
  (comma ∉ c) ∧ (newline ∉ c) ∧ (comma ∉ List.map lower_ascii c).
Proof.
  assert (Forall (λ c, bool_decide
            (forallb is_ascii c = true ∧ c ≠ [] ∧ strip c = c ∧
             (comma ∉ c) ∧ (newline ∉ c) ∧ (comma ∉ List.map lower_ascii c)) = true)
          countries) as Hall.
  { unfold countries. simpl List.map.
    repeat (constructor; [vm_compute; reflexivity|]). constructor. }
  rewrite Forall_forall in Hall. intros Hc.
  exact (proj1 (bool_decide_eq_true _) (Hall c Hc)).
Qed.

(** No gazetteer name occurs, in lower case, in another one. *)
Lemma countries_apart (c c' : pystr) :
  c ∈ countries → c' ∈ countries → c ≠ c' →
  contains (List.map lower_ascii c) (space :: List.map lower_ascii c') = false.
Proof.
  assert (forallb (λ c, forallb (λ c',
            bool_decide (c = c') ||
            negb (contains (List.map lower_ascii c) (space :: List.map lower_ascii c')))
            countries) countries = true) as Hall.
  { vm_compute. reflexivity. }
  rewrite forallb_forall in Hall.
  intros Hc Hc' Hne.
  specialize (Hall c (proj1 (list_elem_of_In _ _) Hc)).
  rewrite forallb_forall in Hall.
  specialize (Hall c' (proj1 (list_elem_of_In _ _) Hc')).
  apply orb_true_iff in Hall as [Heq | Hno].
  - by apply bool_decide_eq_true in Heq.
  - by apply negb_true_iff in Hno.
Qed.

Section DetectFacts.
Context {U : UnicodeData}.

(** The country of an address is the first gazetteer name that its
    text holds, compared in lower case. *)
Lemma detect_country_find (cs : list pystr) (x : pystr) :
  detect_country cs x
  = match List.find (λ c, contains (lower c) (lower x)) cs with
    | Some c => (Some c, strip (strip_chars (py ", ") (replace c [] x)))
    | None => (None, x)
    end.
Proof.
  induction cs as [|c cs IH]; simpl; [done|].
  by destruct (contains (lower c) (lower x)).
Qed.

Lemma detect_country_first (pre post : list pystr) (C x : pystr) :
  (∀ c, c ∈ pre → contains (lower c) (lower x) = false) →
  contains (lower C) (lower x) = true →
  detect_country (pre ++ C :: post) x
  = (Some C, strip (strip_chars (py ", ") (replace C [] x))).
Proof.
  intros Hpre HC. induction pre as [|c pre IH]; simpl.
  - by rewrite HC.
  - rewrite (Hpre c) by (by left). apply IH.
    intros c' Hc'. apply Hpre. by right.
Qed.

End DetectFacts.

Lemma lstrip_by_other (p q : N → bool) (s : pystr) :
  lstrip_by p s = s → (∀ c, c ∈ s → q c = true → p c = true) →
  lstrip_by q s = s.
Proof.
  destruct s as [|c s]; [done|].
  intros Hp%lstrip_by_id_head Hq. apply lstrip_by_keep.
  destruct (q c) eqn:Hqc; [|done].
  rewrite (Hq c) in Hp; [done | by left | done].
Qed.

Lemma rstrip_by_other (p q : N → bool) (s : pystr) :
  rstrip_by p s = s → (∀ c, c ∈ s → q c = true → p c = true) →
  rstrip_by q s = s.
Proof.
  intros Hp%rstrip_by_id_rev Hq. apply rstrip_by_of_rev.
  apply (lstrip_by_other p); [done|].
  intros c Hc. apply Hq.
  by apply list_elem_of_In, in_rev, list_elem_of_In.
Qed.

Lemma separator_char (c : N) :
  existsb (N.eqb c) (py ", ") = true → c = comma ∨ c = space.
Proof.
  simpl. rewrite !orb_true_iff, !N.eqb_eq. intros [? | [? | ?]]; auto. done.
Qed.

(** Removing the separators around a trimmed comma-free text that is
    followed by a comma and a space gives the text back. *)
Lemma strip_chars_trailing (city : pystr) :
  city ≠ [] → strip city = city → comma ∉ city →
  strip_chars (py ", ") (city ++ py ", ") = city.
Proof.
  intros Hne [Hl Hr]%strip_by_id_inv Hcomma.
  assert (∀ c, c ∈ city → existsb (N.eqb c) (py ", ") = true → isspace c = true)
    as Hsep.
  { intros c Hc [-> | ->]%separator_char; done. }
  unfold strip_chars, strip_by.
  rewrite lstrip_by_id_app; [|done|by apply (lstrip_by_other isspace)].
  rewrite rstrip_by_drop by done.
  by apply (rstrip_by_other isspace).
Qed.

Section CountryFacts.
Context {U : UnicodeData} {L : UnicodeLaws U}.

Lemma lower_country (c : pystr) :
  c ∈ countries → lower c = List.map lower_ascii c.
Proof. intros (Hasc & _)%countries_facts. by apply lower_ascii_str. Qed.

(** Deleting the country that closes a candidate text leaves the city
    and the separator, when the country does not occur in the city. *)
Lemma replace_trailing_country (city Country : pystr) :
  Country ∈ countries →
  comma ∉ city → contains Country city = false →
  replace Country [] (city ++ py ", " ++ Country) = city ++ py ", ".
Proof.
  intros (_ & Hne & [Hl _]%strip_by_id_inv & Hcomma & _)%countries_facts Hcity Hocc.
  assert (∀ b s, startswith Country (b :: s) = true → b ≠ comma ∧ b ≠ space)
    as Hhead.
  { intros b s [x Hx]%startswith_spec.
    destruct Country as [|c0 C']; [done|]. injection Hx as <- _. split.
    - intros ->. apply Hcomma. by left.
    - intros ->. by apply lstrip_by_id_head in Hl. }
  rewrite replace_nonempty by done.
  rewrite (assoc_L (++)), replace_from_keep.
  { rewrite replace_from_self by done. by rewrite app_nil_r. }
  intros a1 a2 Hsplit Ha2.
  destruct (startswith Country (a2 ++ Country)) eqn:Hsw; [exfalso|done].
  apply app_eq_inv in Hsplit as [(k & -> & ->) | (k & -> & Hk)].
  - (* the occurrence starts inside the city *)
    apply startswith_spec in Hsw as [x Hx].
    rewrite <- (assoc_L (++)) in Hx.
    change (k ++ py ", " ++ Country) with (k ++ comma :: ([space] ++ Country)) in Hx.
    assert (length x = (length k + 2)%nat) as Hlen.
    { apply (f_equal length) in Hx. rewrite !length_app in Hx. simpl in Hx. lia. }
    apply (occurrence_beside comma Country k _ [] x) in Hx as [[b' Hk] | [a' Ha']];
      [| |done].
    + rewrite (proj2 (contains_spec Country (a1 ++ k))) in Hocc; [done|].
      exists a1, b'. by rewrite Hk.
    + apply (f_equal length) in Ha'. rewrite !length_app in Ha'. simpl in Ha'. lia.
  - (* the occurrence starts at the separator *)
    destruct k as [|k0 [|k1 k]]; simpl in Hk.
    + subst a2. by apply Hhead in Hsw as [? _].
    + injection Hk as _ <-. by apply Hhead in Hsw as [_ ?].
    + injection Hk as _ _ Hk. symmetry in Hk.
      apply app_eq_nil in Hk as [_ ->]. done.
Qed.

Lemma detect_trailing_country (pre post : list pystr) (city Country : pystr) :
  countries = pre ++ Country :: post →
  city ≠ [] → strip city = city → comma ∉ city →
  forallb is_ascii city = true →
  (∀ c, c ∈ pre ++ [Country] → contains (lower c) (lower city) = false) →
  detect_country countries (city ++ py ", " ++ Country) = (Some Country, city).
Proof.
  intros Hcs Hne Hstrip Hcomma Hasc Hfree.
  assert (Country ∈ countries) as HC.
  { rewrite Hcs. apply elem_of_app. right. by left. }
  assert (∀ c, c ∈ pre → c ∈ countries ∧ c ≠ Country) as Hpre.
  { intros c Hc. split; [rewrite Hcs; apply elem_of_app; by left|].
    pose proof countries_NoDup as Hnd. rewrite Hcs in Hnd.
    apply NoDup_app in Hnd as (_ & Hnd & _). intros ->.
    apply (Hnd Country Hc). by left. }
  destruct (countries_facts Country HC) as (HCasc & HCne & _).
  assert (lower (city ++ py ", " ++ Country)
          = List.map lower_ascii city ++ comma :: space :: List.map lower_ascii Country)
    as Hlow.
  { rewrite lower_ascii_str.
    - by rewrite !List.map_app.
    - rewrite !forallb_app. by rewrite Hasc, HCasc. }
  assert (∀ c, c ∈ countries →
            contains (lower c) (lower city) = false →
            contains c city = false) as Hexact.
  { intros c Hc Hno. destruct (contains c city) eqn:Hocc; [|done].
    apply (contains_map lower_ascii) in Hocc.
    rewrite lower_country, lower_ascii_str in Hno by done. congruence. }
  rewrite Hcs at 1. rewrite detect_country_first.
  - rewrite replace_trailing_country; [|done|done|].
    + rewrite strip_chars_trailing by done. by rewrite Hstrip.
    + apply Hexact; [done|]. apply Hfree, elem_of_app. right. by left.
  - intros c Hc. destruct (Hpre c Hc) as [Hin Hneq].
    rewrite Hlow, lower_country by done.
    destruct (contains _ _) eqn:Hocc; [exfalso|done].
    apply contains_beside in Hocc as [Hocc | Hocc].
    + specialize (Hfree c). rewrite lower_country, lower_ascii_str in Hfree by done.
      rewrite Hfree in Hocc; [done|]. apply elem_of_app. by left.
    + by rewrite countries_apart in Hocc.
    + by apply countries_facts.
  - rewrite Hlow, lower_country by done. apply contains_spec.
    exists (List.map lower_ascii city ++ [comma; space]), [].
    by rewrite app_nil_r, <- (assoc_L (++)).
Qed.

End CountryFacts.

(** C4, evaluated on the code: in 'Hlavna 1, 811 01 Bratislava,
    SLOVENSKA REPUBLIKA' the scan finds the first gazetteer name,
    'Slovenska republika', by a comparison in lower case and sets it as
    the country, but the removal compares exactly and removes nothing:
    the returned city is 'Bratislava, SLOVENSKA REPUBLIKA', which still
    holds the country's text. *)
Theorem parse_address_country_kept (U : UnicodeData) (L : UnicodeLaws U) :
  get (parse_address (Some shouting_address)) "Country"
    = Some (py "Slovenska republika") ∧
  get (parse_address (Some shouting_address)) "City"
    = Some (py "Bratislava, SLOVENSKA REPUBLIKA") ∧
  contains (lower (py "Slovenska republika"))
           (lower (py "Bratislava, SLOVENSKA REPUBLIKA")) = true.
Proof.
  assert (contains (lower (py "Slovenska republika"))
            (lower (py "Bratislava, SLOVENSKA REPUBLIKA")) = true) as Hocc.
  { by rewrite !lower_ascii_str. }
  change shouting_address
    with (py "Hlavna 1" ++ py ", " ++ py "811 01" ++ [space]
          ++ join (py ", ") [py "Bratislava"; py "SLOVENSKA REPUBLIKA"]).
  rewrite parse_address_shape.
  - rewrite (detect_country_first [] (tail countries) (py "Slovenska republika"));
      [|by intros c ?%elem_of_nil|exact Hocc].
    unfold get. by simplify_map_eq.
  - reflexivity.
  - apply (bool_decide_unpack _). vm_compute. exact I.
  - exists 56, 49, 49, [32], 48, 49. split; [reflexivity|]. split; [|eauto].
    simpl. by rewrite !isdecimal_ascii.
  - repeat constructor; try discriminate;
      apply (bool_decide_unpack _); vm_compute; exact I.
Qed.

Lemma parse_address_country_kept_witness :
  get (parse_address (U:=latin_db) (Some shouting_address)) "City"
    = Some (py "Bratislava, SLOVENSKA REPUBLIKA").
Proof.
  apply (parse_address_country_kept latin_db latin_laws).
Defined.

(** C5, as stated, fails: 'Queens Road 1, 999 77 Hongkong, Hongkong'
    has the stated form with the city Hongkong and the gazetteer country
    Hongkong, but the parser removes every occurrence of the country and
    returns no city. *)
Lemma parse_address_hongkong :
  hongkong_address
    = py "Queens Road 1" ++ py ", " ++ py "999 77" ++ [space]
      ++ py "Hongkong" ++ py ", " ++ py "Hongkong" ∧
  py "Hongkong" ∈ countries ∧
  get (parse_address (U:=latin_db) (Some hongkong_address)) "Country"
    = Some (py "Hongkong") ∧
  get (parse_address (U:=latin_db) (Some hongkong_address)) "City" = None.
Proof.
  split; [reflexivity|]. split; [|split].
  - apply (bool_decide_unpack _). vm_compute. exact I.
  - vm_compute. reflexivity.
  - vm_compute. reflexivity.
Qed.

(** C5, amended: for a trimmed comma-free line, a postal code of three
    digits, an optional whitespace character and two digits, a non-empty
    trimmed ASCII city without comma or newline, and a gazetteer country,
    such that neither the country nor any gazetteer name before it
    occurs in the city (compared in lower case), the parser returns
    exactly the line, the postal code, the city and the country. *)
Theorem parse_address_recovers
    (U : UnicodeData) (L : UnicodeLaws U)
    (line zip city Country : pystr) (pre post : list pystr) :
  strip line = line → comma ∉ line →
  is_postal_code zip →
  city ≠ [] → strip city = city → comma ∉ city → newline ∉ city →
  forallb is_ascii city = true →
  countries = pre ++ Country :: post →
  (∀ c, c ∈ pre ++ [Country] → contains (lower c) (lower city) = false) →
  parse_address
    (Some (line ++ py ", " ++ zip ++ [space] ++ city ++ py ", " ++ Country))
  = {[ "Address" := Some line;
       "PostalCode" := Some zip;
       "City" := Some city;
       "Country" := Some Country ]}%string.
Proof.
  intros Hline Hlc Hzip Hne Hstrip Hcomma Hnl Hasc Hcs Hfree.
  assert (Country ∈ countries) as HC.
  { rewrite Hcs. apply elem_of_app. right. by left. }
  destruct (countries_facts Country HC) as (_ & HCne & HCstrip & HCcomma & HCnl & _).
  change (city ++ py ", " ++ Country) with (join (py ", ") [city; Country]).
  rewrite parse_address_shape by (repeat constructor; done).
  change (join (py ", ") [city; Country]) with (city ++ py ", " ++ Country).
  rewrite (detect_trailing_country pre post) by done.
  simpl. by destruct city.
Qed.

Lemma parse_address_recovers_witness :
  parse_address (U:=latin_db)
    (Some (py "Hlavna 1, 811 01 Bratislava, Slovenska republika"))
  = {[ "Address" := Some (py "Hlavna 1");
       "PostalCode" := Some (py "811 01");
       "City" := Some (py "Bratislava");
       "Country" := Some (py "Slovenska republika") ]}%string.
Proof.
  apply (parse_address_recovers latin_db latin_laws
           (py "Hlavna 1") (py "811 01") (py "Bratislava")
           (py "Slovenska republika") [] (tail countries)).
  - reflexivity.
  - apply (bool_decide_unpack _). vm_compute. exact I.
  - exists 56, 49, 49, [32], 48, 49. split; [reflexivity|]. split; [reflexivity|].
    right. exists 32. split; reflexivity.
  - discriminate.
  - reflexivity.
  - apply (bool_decide_unpack _). vm_compute. exact I.
  - apply (bool_decide_unpack _). vm_compute. exact I.
  - reflexivity.
  - reflexivity.
  - intros c [Hc|Hc]%elem_of_cons; [subst c; reflexivity|].
    by apply elem_of_nil in Hc.
Defined.

(** ** PageExtractor: [scrape_partner] *)

Section CrawlFacts.
Context {U : UnicodeData} {W : World}.

Lemma scrape_partner_inv (partner_id : Z) (r : record) :
  scrape_partner partner_id = Return (Some r) →
  ∃ response soup bo bos,
    requests_get (detail_url partner_id) = Return response ∧
    status_code response = 200%Z ∧
    BeautifulSoup (convert_to_english (Some (text response))) = Return soup ∧
    parse_bo_table soup = Return (bo :: bos) ∧
    BeneficialOwners r = List.map parse_owner_address (bo :: bos) ∧
    SourceURL r = detail_url partner_id.
Proof.
  unfold scrape_partner.
  destruct (requests_get (detail_url partner_id)) as [response|e]; [|done].
  cbn [mbind result_bind].
  destruct (Z.eqb_spec (status_code response) 200) as [Hst|Hst]; [|done].
  cbn [negb].
  destruct (BeautifulSoup (convert_to_english (Some (text response))))
    as [soup|e] eqn:Hsoup; [|done].
  cbn [mbind result_bind].
  destruct (parse_bo_table soup) as [[|bo bos]|e] eqn:Hbos; try done.
  cbn [mbind result_bind]. intros [= <-]. by exists response, soup, bo, bos.
Qed.

End CrawlFacts.

Section OwnerRows.
Context {U : UnicodeData}.

Lemma wide_row_cells (cols : tr) :
  wide_row cols = true ↔ ∃ c0 c1 c2 c3 more, cols = c0 :: c1 :: c2 :: c3 :: more.
Proof.
  unfold wide_row. rewrite bool_decide_eq_true. split.
  - destruct cols as [|c0 [|c1 [|c2 [|c3 more]]]]; simpl; try lia. eauto 10.
  - intros (c0 & c1 & c2 & c3 & more & ->). simpl. lia.
Qed.

(** The parsed owners are those of the rows with at least four cells. *)
Lemma owners_from_rows (rows : list tr) :
  Forall2 owner_from_row (List.filter wide_row rows)
    (List.map parse_owner_address (flat_map parse_bo_row rows)).
Proof.
  induction rows as [|cols rows IH]; simpl; [constructor|].
  destruct (wide_row cols) eqn:Hwide.
  - apply wide_row_cells in Hwide as (c0 & c1 & c2 & c3 & more & ->).
    simpl. constructor; [|exact IH].
    exists c0, c1, c2, c3, more. done.
  - assert (parse_bo_row cols = []) as ->; [|exact IH].
    destruct cols as [|c0 [|c1 [|c2 [|c3 more]]]]; try done.
Qed.

Lemma no_wide_row_no_owner (rows : list tr) :
  List.filter wide_row rows = [] → flat_map parse_bo_row rows = [].
Proof.
  intros Hnone. pose proof (owners_from_rows rows) as Hall.
  rewrite Hnone in Hall. apply Forall2_nil_inv_l in Hall.
  by apply fmap_nil_inv in Hall.
Qed.

End OwnerRows.

(** C7, evaluated on the code: for a fetched page (status 200) that
    parses to a document,
    - if the owner table has no body, the extraction raises
      [AttributeError]: no owner row is found, yet it does not return
      none;
    - if there is no owner table, or the table body has no row with at
      least four cells, the extraction returns none;
    - every Record returned comes from a table body and holds exactly
      one owner for each row with at least four cells, built from that
      row's cells, and so at least one owner. *)
Theorem scrape_partner_by_document
    (U : UnicodeData) (W : World) (partner_id : Z) (response : response) (s : soup) :
  requests_get (detail_url partner_id) = Return response →
  status_code response = 200%Z →
  BeautifulSoup (convert_to_english (Some (text response))) = Return s →
  (∀ t, table s = Some t → tbody t = None →
        scrape_partner partner_id = Raise AttributeError) ∧
  (table s = None ∨
   (∃ t rows, table s = Some t ∧ tbody t = Some rows ∧
              List.filter wide_row rows = []) →
   scrape_partner partner_id = Return None) ∧
  (∀ r, scrape_partner partner_id = Return (Some r) →
        ∃ t rows,
          table s = Some t ∧ tbody t = Some rows ∧
          Forall2 owner_from_row (List.filter wide_row rows) (BeneficialOwners r) ∧
          BeneficialOwners r ≠ [] ∧
          SourceURL r = detail_url partner_id).
Proof.
  intros Hget Hst Hs.
  assert (∀ bos, parse_bo_table s = bos →
            scrape_partner partner_id
            = match bos with
              | Return [] => Return None
              | Return (bo :: bos') =>
                  Return (Some
                    {| BusinessName := convert_to_english (get_field s label_name);
                       ICO := convert_to_english (get_field s label_ico);
                       Address := parse_address
                                    (convert_to_english (get_field s label_address));
                       VerificationDate :=
                         convert_to_english (get_field s label_date);
                       VerificationDocumentURL :=
                         convert_to_english (get_pdf_url s label_pdf);
                       BeneficialOwners := List.map parse_owner_address (bo :: bos');
                       SourceURL := detail_url partner_id |})
              | Raise e => Raise e
              end) as Hscrape.
  { intros bos Hbos. unfold scrape_partner.
    rewrite Hget. cbn [mbind result_bind]. rewrite Hst, Z.eqb_refl.
    cbn [negb]. rewrite Hs. cbn [mbind result_bind]. rewrite Hbos.
    by destruct bos as [[|bo bos']|e]. }
  split; [|split].
  - intros t Ht Hbody. rewrite (Hscrape (Raise AttributeError)); [done|].
    unfold parse_bo_table. by rewrite Ht, Hbody.
  - intros [Ht | (t & rows & Ht & Hbody & Hnone)].
    + rewrite (Hscrape (Return [])); [done|].
      unfold parse_bo_table. by rewrite Ht.
    + rewrite (Hscrape (Return [])); [done|].
      unfold parse_bo_table. rewrite Ht, Hbody.
      by rewrite no_wide_row_no_owner.
  - intros r Hr. rewrite (Hscrape _ eq_refl) in Hr.
    unfold parse_bo_table in Hr.
    destruct (table s) as [t|] eqn:Ht; [|done].
    destruct (tbody t) as [rows|] eqn:Hbody; [|done].
    destruct (flat_map parse_bo_row rows) as [|bo bos] eqn:Hrows; [done|].
    injection Hr as <-. exists t, rows. split; [done|]. split; [done|].
    split; [|split; done].
    change (Forall2 owner_from_row (List.filter wide_row rows)
              (List.map parse_owner_address (bo :: bos))).
    rewrite <- Hrows. apply owners_from_rows.
Qed.

Lemma scrape_partner_by_document_witness :
  scrape_partner (U:=latin_db) (W:=bodyless_world) 7 = Raise AttributeError ∧
  scrape_partner (U:=latin_db) (W:=ownerless_world) 7 = Return None.
Proof.
  split.
  - apply (proj1 (scrape_partner_by_document latin_db bodyless_world 7
                    {| status_code := 200; text := py "<html>" |} bodyless_soup
                    eq_refl eq_refl eq_refl) {| tbody := None |});
      reflexivity.
  - apply (proj1 (proj2 (scrape_partner_by_document latin_db ownerless_world 7
                    {| status_code := 200; text := py "<html>" |} empty_soup
                    eq_refl eq_refl eq_refl))).
    right. exists {| tbody := Some [] |}, []. done.
Defined.

(** ** CrawlController *)

Section LoopFacts.
Context {U : UnicodeData} {W : World}.

Lemma same_stores_refl (st : state) : same_stores st st.
Proof. done. Qed.

Lemma same_stores_trans (st1 st2 st3 : state) :
  same_stores st1 st2 → same_stores st2 st3 → same_stores st1 st3.
Proof. unfold same_stores. intros [-> ->] [-> ->]. done. Qed.

Lemma save_cache_same_stores (partner_id : Z) (st : state) :
  same_stores st (save_cache partner_id st).1.
Proof.
  unfold save_cache, same_stores, mbind, prog_bind, modify, read, lift.
  destruct (fs_write CacheFile partner_id); simpl; try done;
    destruct (sorted_by_key (elements (processed_ids st))); done.
Qed.

Lemma save_output_same_stores (partner_id : Z) (st : state) :
  same_stores st (save_output partner_id st).1.
Proof.
  unfold save_output, same_stores.
  destruct (fs_write OutputFile partner_id); done.
Qed.

Lemma save_cache_log (partner_id : Z) (st : state) :
  log (save_cache partner_id st).1 = log st.
Proof.
  unfold save_cache, mbind, prog_bind, modify, read, lift.
  destruct (fs_write CacheFile partner_id); simpl; try done;
    destruct (sorted_by_key (elements (processed_ids st))); done.
Qed.

Lemma save_output_log (partner_id : Z) (st : state) :
  log (save_output partner_id st).1 = log st.
Proof.
  unfold save_output. destruct (fs_write OutputFile partner_id); done.
Qed.

(** The [try] block after a successful extraction: the Record is
    appended, the save is logged and the URL cached, whatever happens
    to the files afterwards. *)
Lemma try_body_saved (partner_id : Z) (url : pystr) (st : state) (data : record) :
  scrape_partner partner_id = Return (Some data) →
  all_data (try_body partner_id url st).1 = all_data st ++ [data] ∧
  processed_ids (try_body partner_id url st).1 = {[ url ]} ∪ processed_ids st ∧
  log (try_body partner_id url st).1
    = log st ++ [LogSaved partner_id (BusinessName data)].
Proof.
  intros Hscrape. unfold try_body. rewrite Hscrape.
  unfold mbind, prog_bind, lift, modify. simpl.
  match goal with
  | |- context [ save_cache partner_id ?s ] =>
      pose proof (save_cache_same_stores partner_id s) as [Hd Hp];
      pose proof (save_cache_log partner_id s) as Hl;
      destruct (save_cache partner_id s) as [st1 [[]|e]]
  end; simpl in *; [|done].
  pose proof (save_output_same_stores partner_id st1) as [Hd' Hp'].
  pose proof (save_output_log partner_id st1) as Hl'.
  destruct (save_output partner_id st1) as [st2 [[]|e]]; simpl in *.
  - by rewrite Hd', Hp', Hl', Hd, Hp, Hl.
  - by rewrite Hd', Hp', Hl', Hd, Hp, Hl.
Qed.

Lemma try_body_nothing (partner_id : Z) (url : pystr) (st : state) :
  scrape_partner partner_id = Return None →
  try_body partner_id url st = (st, Return ()).
Proof. intros Hscrape. unfold try_body. by rewrite Hscrape. Qed.

Lemma try_body_raised (partner_id : Z) (url : pystr) (st : state) (e : exn) :
  scrape_partner partner_id = Raise e →
  try_body partner_id url st = (st, Raise e).
Proof. intros Hscrape. unfold try_body. by rewrite Hscrape. Qed.

(** What one iteration does to the collection and the cache. *)
Lemma step_stores (st : state) (partner_id : Z) :
  ((detail_url partner_id ∉ processed_ids st) ∧
   ∃ data, scrape_partner partner_id = Return (Some data) ∧
           all_data (step st partner_id) = all_data st ++ [data] ∧
           processed_ids (step st partner_id)
             = {[ detail_url partner_id ]} ∪ processed_ids st) ∨
  ((detail_url partner_id ∈ processed_ids st ∨
    scrape_partner partner_id = Return None ∨
    ∃ e, scrape_partner partner_id = Raise e) ∧
   same_stores st (step st partner_id)).
Proof.
  unfold step. case_bool_decide as Hin.
  { right. split; [by left | done]. }
  unfold try_except.
  destruct (scrape_partner partner_id) as [[data|]|e] eqn:Hscrape.
  - left. split; [done|]. exists data. split; [done|].
    destruct (try_body_saved partner_id (detail_url partner_id) st data Hscrape)
      as (Hd & Hp & _).
    destruct (try_body partner_id (detail_url partner_id) st) as [st' [[]|e]];
      simpl in *; by rewrite Hd, Hp.
  - right. split; [right; by left|].
    by rewrite try_body_nothing.
  - right. split; [right; right; by exists e|].
    by rewrite (try_body_raised _ _ _ e).
Qed.

Lemma step_lockstep (st : state) (partner_id : Z) :
  lockstep st → lockstep (step st partner_id).
Proof.
  intros Hinv.
  destruct (step_stores st partner_id)
    as [(_ & data & Hscrape & Hd & Hp) | (_ & Hd & Hp)]; unfold lockstep.
  - rewrite Hd, Hp. intros u [->%elem_of_singleton | Hu]%elem_of_union.
    + exists data. split; [apply elem_of_app; right; by left|].
      by apply scrape_partner_inv in Hscrape as (? & ? & ? & ? & _ & _ & _ & _ & _ & ?).
    + destruct (Hinv u Hu) as (r & Hr & Hurl).
      exists r. split; [apply elem_of_app; by left | done].
  - rewrite Hd, Hp. exact Hinv.
Qed.

Lemma grown_trans (st1 st2 st3 : state) :
  grown st1 st2 → grown st2 st3 → grown st1 st3.
Proof.
  intros [Hd12 Hp12] [Hd23 Hp23]. split; [by auto|].
  intros u [Hu | Hu]%Hp23; [|by right].
  apply Hp12 in Hu as [Hu | (r & Hr & Hurl)]; [by left|].
  right. exists r. auto.
Qed.

Lemma step_grown (st : state) (partner_id : Z) : grown st (step st partner_id).
Proof.
  destruct (step_stores st partner_id)
    as [(_ & data & Hscrape & Hd & Hp) | (_ & Hd & Hp)]; unfold grown;
    rewrite Hd, Hp.
  - split; [intros r Hr; apply elem_of_app; by left|].
    intros u [->%elem_of_singleton | Hu]%elem_of_union; [right | by left].
    exists data. split; [apply elem_of_app; right; by left|].
    by apply scrape_partner_inv in Hscrape as (? & ? & ? & ? & _ & _ & _ & _ & _ & ?).
  - split; [done | by left].
Qed.

Lemma foldl_step_grown (ids : list Z) (st : state) :
  grown st (foldl step st ids).
Proof.
  revert st. induction ids as [|partner_id ids IH]; intros st.
  - split; [done | by left].
  - simpl. eapply grown_trans; [apply step_grown | apply IH].
Qed.

Lemma foldl_step_lockstep (ids : list Z) (st : state) :
  lockstep st → lockstep (foldl step st ids).
Proof.
  revert st. induction ids as [|partner_id ids IH]; intros st Hinv; [done|].
  simpl. by apply IH, step_lockstep.
Qed.

Lemma run_next (partner_id end_ : Z) (st : state) :
  (partner_id ≤ end_)%Z →
  run partner_id end_ st = run (partner_id + 1) end_ (step st partner_id).
Proof.
  intros Hle. unfold run. rewrite seqZ_cons by lia. simpl.
  do 2 f_equal; lia.
Qed.

End LoopFacts.

(** C8: in every run of the crawl loop, a URL enters the processed-ID
    cache only in an iteration that appends a Record with that source
    URL to the collection; an ID whose extraction returns nothing or
    raises leaves cache and collection as they were; hence every URL
    cached during a run has its Record in the collection at the end,
    and from a state in which every cached URL has its Record a run
    ends in such a state. *)
Theorem run_lockstep
    (U : UnicodeData) (W : World) (start end_ : Z) (st : state) :
  lockstep st →
  lockstep (run start end_ st) ∧
  grown st (run start end_ st) ∧
  (∀ st0 partner_id u,
     u ∈ processed_ids (step st0 partner_id) → u ∉ processed_ids st0 →
     u = detail_url partner_id ∧
     ∃ data, scrape_partner partner_id = Return (Some data) ∧
             SourceURL data = u ∧
             all_data (step st0 partner_id) = all_data st0 ++ [data]) ∧
  (∀ st0 partner_id,
     scrape_partner partner_id = Return None ∨
     (∃ e, scrape_partner partner_id = Raise e) →
     same_stores st0 (step st0 partner_id)).
Proof.
  intros Hinv. split; [by apply foldl_step_lockstep|].
  split; [apply foldl_step_grown|]. split.
  - intros st0 partner_id u Hin Hnew.
    destruct (step_stores st0 partner_id)
      as [(_ & data & Hscrape & Hd & Hp) | (_ & _ & Hp)].
    + rewrite Hp in Hin.
      apply elem_of_union in Hin as [->%elem_of_singleton | Hin]; [|done].
      split; [done|]. exists data. split; [done|]. split; [|done].
      by apply scrape_partner_inv in Hscrape as (? & ? & ? & ? & _ & _ & _ & _ & _ & ?).
    + by rewrite Hp in Hin.
  - intros st0 partner_id Hnone.
    destruct (step_stores st0 partner_id)
      as [(_ & data & Hscrape & _) | (_ & Hsame)]; [|done].
    destruct Hnone as [Hnone | [e He]]; congruence.
Qed.

Lemma run_lockstep_witness :
  lockstep (run (U:=latin_db) (W:=calm_world) 1 3 fresh_state).
Proof.
  apply (run_lockstep latin_db calm_world 1 3 fresh_state).
  intros u Hu. by apply elem_of_empty in Hu.
Defined.

Section PersistenceFacts.
Context {U : UnicodeData} {W : World}.

(** A failing write makes the [try] block raise. *)
Lemma try_body_write_fails (partner_id : Z) (url : pystr) (st : state) (data : record) :
  scrape_partner partner_id = Return (Some data) →
  fs_write CacheFile partner_id ≠ WriteOk ∨
  fs_write OutputFile partner_id ≠ WriteOk →
  ∃ e, (try_body partner_id url st).2 = Raise e.
Proof.
  intros Hscrape Hfail. unfold try_body, save_cache, save_output.
  rewrite Hscrape.
  destruct (fs_write CacheFile partner_id) eqn:Hc;
    unfold mbind, prog_bind, lift, modify, read; simpl; eauto;
    match goal with
    | |- context [ sorted_by_key ?l ] => destruct (sorted_by_key l)
    end; simpl; eauto.
  destruct Hfail as [? | Hfail]; [done|].
  destruct (fs_write OutputFile partner_id); simpl; eauto. done.
Qed.

End PersistenceFacts.

(** C9, as stated, fails: when the cache file cannot be opened while
    partner 1 is processed, the run from 1 to 2 logs a warning for
    partner 1 and goes on to save partner 2; both Records are in the
    collection at the end. *)
Lemma run_survives_write_failure :
  fs_write (World:=failing_disk_world) CacheFile 1 = OpenFails ∧
  log (run (U:=latin_db) (W:=failing_disk_world) 1 2 fresh_state)
    = [LogSaved 1 None; LogWarning 1 OSError; LogSaved 2 None] ∧
  SourceURL <$> all_data (run (U:=latin_db) (W:=failing_disk_world) 1 2 fresh_state)
    = [detail_url 1; detail_url 2].
Proof. split; [reflexivity|]. split; vm_compute; reflexivity. Qed.

(** C9, amended: a persistence failure during the crawl loop is caught
    at the per-ID boundary; the Record stays appended and its URL
    cached, the failure is logged as a warning for that ID, and the loop
    goes on with the next ID. *)
Theorem persistence_failure_caught
    (U : UnicodeData) (W : World)
    (st : state) (partner_id end_ : Z) (data : record) :
  (partner_id ≤ end_)%Z →
  detail_url partner_id ∉ processed_ids st →
  scrape_partner partner_id = Return (Some data) →
  fs_write CacheFile partner_id ≠ WriteOk ∨
  fs_write OutputFile partner_id ≠ WriteOk →
  ∃ e,
    all_data (step st partner_id) = all_data st ++ [data] ∧
    processed_ids (step st partner_id)
      = {[ detail_url partner_id ]} ∪ processed_ids st ∧
    log (step st partner_id)
      = log st ++ [LogSaved partner_id (BusinessName data);
                   LogWarning partner_id e] ∧
    run partner_id end_ st = run (partner_id + 1) end_ (step st partner_id).
Proof.
  intros Hle Hnew Hscrape Hfail.
  destruct (try_body_write_fails partner_id (detail_url partner_id) st data
              Hscrape Hfail) as [e He].
  destruct (try_body_saved partner_id (detail_url partner_id) st data Hscrape)
    as (Hd & Hp & Hl).
  exists e. unfold step at 1 2 3. rewrite bool_decide_eq_false_2 by done.
  unfold try_except.
  destruct (try_body partner_id (detail_url partner_id) st) as [st' r].
  simpl in *. subst r. simpl. rewrite Hd, Hp, Hl.
  repeat split; [by rewrite <- (assoc_L (++)) | by apply run_next].
Qed.

Lemma persistence_failure_caught_witness :
  ∃ e data,
    all_data (step (U:=latin_db) (W:=failing_disk_world) fresh_state 1) = [data] ∧
    log (step (U:=latin_db) (W:=failing_disk_world) fresh_state 1)
      = [LogSaved 1 (BusinessName data); LogWarning 1 e] ∧
    run (U:=latin_db) (W:=failing_disk_world) 1 2 fresh_state
      = run (U:=latin_db) (W:=failing_disk_world) 2 2
          (step (U:=latin_db) (W:=failing_disk_world) fresh_state 1).
Proof.
  pose (r := scrape_partner (U:=latin_db) (W:=failing_disk_world) 1).
  assert (∃ data, r = Return (Some data)) as [data Hdata].
  { eexists. vm_compute. reflexivity. }
  destruct (persistence_failure_caught latin_db failing_disk_world
              fresh_state 1 2 data) as (e & Hd & _ & Hl & Hrun).
  - lia.
  - apply not_elem_of_empty.
  - exact Hdata.
  - left. discriminate.
  - exists e, data. split; [exact Hd|]. split; [exact Hl | exact Hrun].
Defined.

(** * Further properties of the code *)

(** ** More facts about the string operations *)

Section StripMore.
Variable p : N → bool.

Lemma lstrip_by_suffix (s : pystr) :
  ∃ pre, s = pre ++ lstrip_by p s ∧ forallb p pre = true.
Proof.
  induction s as [|c s (pre & Hs & Hpre)]; [by exists []|].
  simpl. destruct (p c) eqn:Hc.
  - exists (c :: pre). simpl. rewrite Hc, Hpre. split; [by f_equal | done].
  - by exists [].
Qed.

Lemma lstrip_by_idemp (s : pystr) :
  lstrip_by p (lstrip_by p s) = lstrip_by p s.
Proof.
  induction s as [|c s IH]; [done|].
  simpl. destruct (p c) eqn:Hc; [done|]. simpl. by rewrite Hc.
Qed.

Lemma rstrip_by_idemp (s : pystr) :
  rstrip_by p (rstrip_by p s) = rstrip_by p s.
Proof.
  unfold rstrip_by. by rewrite rev_involutive, lstrip_by_idemp.
Qed.

Lemma rstrip_by_prefix (s : pystr) :
  ∃ post, s = rstrip_by p s ++ post.
Proof.
  unfold rstrip_by. destruct (lstrip_by_suffix (rev s)) as (pre & Hs & _).
  exists (rev pre). rewrite <- rev_app_distr, <- Hs. by rewrite rev_involutive.
Qed.

(** Stripping the right end keeps a clean left end. *)
Lemma lstrip_by_rstrip_by (s : pystr) :
  lstrip_by p s = s → lstrip_by p (rstrip_by p s) = rstrip_by p s.
Proof.
  intros Hl. destruct (rstrip_by_prefix s) as [post Hs].
  destruct (rstrip_by p s) as [|c r]; [done|].
  rewrite Hs in Hl. apply lstrip_by_id_head in Hl.
  by apply lstrip_by_keep.
Qed.

Lemma strip_by_idemp (s : pystr) :
  strip_by p (strip_by p s) = strip_by p s.
Proof.
  apply strip_by_id.
  - apply lstrip_by_rstrip_by, lstrip_by_idemp.
  - apply rstrip_by_idemp.
Qed.

Lemma lstrip_by_all (s : pystr) : forallb p s = true → lstrip_by p s = [].
Proof.
  intros Hs. rewrite <- (app_nil_r s). by rewrite lstrip_by_drop.
Qed.

End StripMore.

Lemma strip_idemp (s : pystr) : strip (strip s) = strip s.
Proof. apply strip_by_idemp. Qed.

(** Joining non-empty trimmed pieces gives a trimmed text. *)
Lemma join_trimmed (sep : pystr) (segs : list pystr) :
  Forall (λ s, s ≠ [] ∧ strip s = s) segs →
  strip (join sep segs) = join sep segs.
Proof.
  destruct segs as [|seg segs]; [done|]. intros Hsegs.
  destruct (join_last sep seg segs) as (front & back & Hjoin & Hback).
  apply strip_by_id.
  - inversion Hsegs as [|? ? [Hne [Hl _]%strip_by_id_inv] _]; subst.
    destruct segs as [|seg' segs]; [done|].
    change (join sep (seg :: seg' :: segs))
      with (seg ++ sep ++ join sep (seg' :: segs)).
    by apply lstrip_by_id_app.
  - rewrite Forall_forall in Hsegs.
    destruct (Hsegs back Hback) as [Hne [_ Hr]%strip_by_id_inv].
    rewrite Hjoin. by apply rstrip_by_id_app.
Qed.

Lemma get_text_trimmed (sep : pystr) (el : element) :
  strip (get_text sep el) = get_text sep el.
Proof.
  unfold get_text. apply join_trimmed.
  apply Forall_forall. intros s [Hs Hne]%list_elem_of_In%filter_In.
  apply negb_true_iff, bool_decide_eq_false in Hne.
  split; [done|].
  apply in_map_iff in Hs as (t & <- & _). apply strip_idemp.
Qed.

(** Every character of an occurring text occurs. *)
Lemma contains_elem (sub s : pystr) (c : N) :
  contains sub s = true → c ∈ sub → c ∈ s.
Proof.
  intros (a & b & ->)%contains_spec Hc.
  apply elem_of_app. right. apply elem_of_app. by left.
Qed.

Lemma forallb_elem (q : N → bool) (s : pystr) (c : N) :
  forallb q s = true → c ∈ s → q c = true.
Proof.
  rewrite forallb_forall. intros Hs Hc. by apply Hs, list_elem_of_In.
Qed.

(** A text with a non-ASCII character does not occur in ASCII text. *)
Lemma contains_ascii (sub s : pystr) :
  existsb (λ c, negb (is_ascii c)) sub = true →
  forallb is_ascii s = true → contains sub s = false.
Proof.
  intros (c & Hc & Hnon)%existsb_exists Hs.
  destruct (contains sub s) eqn:Hocc; [|done].
  apply list_elem_of_In in Hc.
  rewrite (forallb_elem is_ascii s c Hs) in Hnon; [done|].
  by apply (contains_elem sub).
Qed.

(** ** TextNormalizer, further *)

(** X1: text that is non-empty and already ASCII is returned
    unchanged by the normaliser. *)
Theorem convert_to_english_ascii_fixed
    (U : UnicodeData) (L : UnicodeLaws U) (t : pystr) :
  t ≠ [] → forallb is_ascii t = true →
  convert_to_english (Some t) = Some t.
Proof. intros. by apply convert_to_english_fixes_ascii. Qed.

Lemma convert_to_english_ascii_fixed_witness :
  convert_to_english (U:=latin_db) (Some (py "Bratislava")) = Some (py "Bratislava").
Proof.
  apply (convert_to_english_ascii_fixed latin_db latin_laws (py "Bratislava")).
  - discriminate.
  - reflexivity.
Defined.

(** X2: a text returned by the normaliser holds only ASCII characters:
    it comes from a non-empty text and is the NFKD form of that text
    with exactly the characters of code point 128 and above left out,
    every other character kept as often as it occurs and in order. *)
Theorem convert_to_english_ascii_only
    (U : UnicodeData) (T : option pystr) (r : pystr) :
  convert_to_english T = Some r →
  forallb is_ascii r = true ∧
  ∃ t, T = Some t ∧ t ≠ [] ∧ r = List.filter (λ c, c <? 128) (nfkd t).
Proof.
  intros (t & -> & Ht & ->)%convert_to_english_inv.
  split; [apply encode_ascii_ignore_ascii|]. by exists t.
Qed.

Lemma convert_to_english_ascii_only_witness :
  forallb is_ascii (py "Zilina") = true ∧
  ∃ t, Some zilina = Some t ∧ t ≠ [] ∧
       py "Zilina" = List.filter (λ c, c <? 128) (nfkd (UnicodeData:=latin_db) t).
Proof.
  apply (convert_to_english_ascii_only latin_db (Some zilina) (py "Zilina")).
  reflexivity.
Defined.

(** ** PageExtractor, further *)

Lemma get_field_in_first (groups : list form_group) (label_text : pystr) :
  get_field_in groups label_text = head (omap (field_of label_text) groups).
Proof.
  induction groups as [|group groups IH]; [done|].
  simpl. unfold field_of at 1.
  destruct (label group) as [l|]; [|done].
  destruct (contains label_text (get_text [] l)), (p_static group); done.
Qed.

Lemma get_pdf_url_in_first (groups : list form_group) (label_text base_url : pystr) :
  get_pdf_url_in groups label_text base_url
  = (λ href, base_url ++ href) <$> head (omap (link_of label_text) groups).
Proof.
  induction groups as [|group groups IH]; [done|].
  simpl. unfold link_of at 1.
  destruct (label group) as [l|]; [|done].
  destruct (contains label_text (get_text [] l)), (a_href group); done.
Qed.

(** X3: [get_field] returns the value of the first form group, in
    document order, whose label holds the label text and which has a
    value element (a matching group without one is passed over), and
    [None] when there is no such group. *)
Theorem get_field_first (s : soup) (label_text : pystr) :
  get_field s label_text = head (omap (field_of label_text) (form_groups s)).
Proof. apply get_field_in_first. Qed.

(** X4: a value returned by [get_field] has no whitespace at either
    end. *)
Theorem get_field_trimmed (s : soup) (label_text v : pystr) :
  get_field s label_text = Some v → strip v = v.
Proof.
  unfold get_field. rewrite get_field_in_first.
  intros Hv%head_Some_elem_of%list_elem_of_omap.
  destruct Hv as (group & _ & Hv). unfold field_of in Hv.
  destruct (label group), (p_static group); try done.
  destruct (contains _ _); [|done].
  injection Hv as <-. apply get_text_trimmed.
Qed.

Lemma get_field_trimmed_witness :
  strip (py "123456") = py "123456".
Proof.
  apply (get_field_trimmed two_group_soup (py "ICO") (py "123456")).
  reflexivity.
Defined.

(** X5: [get_pdf_url] returns the base origin followed by the link of
    the first form group whose label holds the label text and which has
    a link, and [None] when there is no such group. *)
Theorem get_pdf_url_first (s : soup) (label_text : pystr) :
  get_pdf_url s label_text
  = (λ href, py "https://rpvs.gov.sk" ++ href)
      <$> head (omap (link_of label_text) (form_groups s)).
Proof. apply get_pdf_url_in_first. Qed.

Lemma ascii_labels_miss (s : soup) (label_text : pystr) :
  ascii_labels s →
  existsb (λ c, negb (is_ascii c)) label_text = true →
  get_field s label_text = None ∧ get_pdf_url s label_text = None.
Proof.
  intros Hs Hlabel.
  assert (∀ group, group ∈ form_groups s →
            field_of label_text group = None ∧ link_of label_text group = None)
    as Hnone.
  { intros group Hgroup. unfold field_of, link_of.
    destruct (label group) as [l|] eqn:Hl; [|done].
    rewrite (contains_ascii label_text (get_text [] l)); [|done|by eapply Hs].
    by destruct (p_static group), (a_href group). }
  unfold get_field, get_pdf_url.
  rewrite get_field_in_first, get_pdf_url_in_first.
  assert (omap (field_of label_text) (form_groups s) = [] ∧
          omap (link_of label_text) (form_groups s) = []) as [-> ->]; [|done].
  induction (form_groups s) as [|group groups IH]; [done|].
  destruct (Hnone group) as [Hf Hl]; [by left|].
  simpl. rewrite Hf, Hl. apply IH.
  intros g Hg. apply Hnone. by right.
Qed.

Lemma ascii_labels_miss_all (s : soup) :
  ascii_labels s →
  get_field s label_name = None ∧ get_field s label_ico = None ∧
  get_field s label_address = None ∧ get_field s label_date = None ∧
  get_pdf_url s label_pdf = None.
Proof.
  intros Hs. repeat split; by apply ascii_labels_miss.
Qed.

(** X6: in a document whose labels are all ASCII text, a label text
    with a non-ASCII character is found by neither lookup. *)
Theorem lookups_miss_ascii_labels (s : soup) (label_text : pystr) :
  ascii_labels s →
  existsb (λ c, negb (is_ascii c)) label_text = true →
  get_field s label_text = None ∧ get_pdf_url s label_text = None.
Proof. apply ascii_labels_miss. Qed.

Lemma lookups_miss_ascii_labels_witness :
  get_field labelled_soup label_name = None ∧
  get_pdf_url labelled_soup label_name = None.
Proof.
  apply (lookups_miss_ascii_labels labelled_soup label_name).
  - intros group l Hgroup Hl.
    repeat (apply elem_of_cons in Hgroup as [-> | Hgroup];
            [injection Hl as <-; reflexivity|]).
    by apply elem_of_nil in Hgroup.
  - reflexivity.
Defined.

Section TableFacts.
Context {U : UnicodeData}.

Lemma parse_bo_row_length (cols : tr) :
  length (parse_bo_row cols) = if wide_row cols then 1%nat else 0%nat.
Proof. by destruct cols as [|? [|? [|? [|? ?]]]]. Qed.

Lemma flat_map_parse_bo_row_length (rows : list tr) :
  length (flat_map parse_bo_row rows) = length (List.filter wide_row rows).
Proof.
  induction rows as [|cols rows IH]; [done|].
  simpl. rewrite length_app, parse_bo_row_length, IH.
  by destruct (wide_row cols).
Qed.

Lemma convert_to_english_ascii_or_null (T : option pystr) :
  ascii_or_null (convert_to_english T).
Proof.
  destruct (convert_to_english T) as [r|] eqn:HT; [|done].
  apply convert_to_english_inv in HT as (t & _ & _ & ->).
  apply encode_ascii_ignore_ascii.
Qed.

End TableFacts.

(** X7: from a table with a body the owner-table parser returns one
    owner for each row with at least four cells, and nothing for the
    other rows. *)
Theorem parse_bo_table_count
    (U : UnicodeData) (groups : list form_group) (rows : list tr) :
  ∃ bos,
    parse_bo_table {| form_groups := groups;
                      table := Some {| tbody := Some rows |} |} = Return bos ∧
    length bos = length (List.filter wide_row rows).
Proof.
  eexists. split; [reflexivity|]. apply flat_map_parse_bo_row_length.
Qed.

(** X8: the owner-table parser raises exactly when the document has a
    table without a body, and then it is an [AttributeError]; without a
    table it returns the empty list. *)
Theorem parse_bo_table_raises (U : UnicodeData) (s : soup) :
  (∀ e, parse_bo_table s = Raise e ↔
        e = AttributeError ∧ ∃ t, table s = Some t ∧ tbody t = None) ∧
  (table s = None → parse_bo_table s = Return []).
Proof.
  unfold parse_bo_table. split.
  - intros e. destruct (table s) as [t|].
    + destruct (tbody t) as [rows|] eqn:Hbody.
      * split; [done|]. intros (_ & t' & [= <-] & Hnone). congruence.
      * split; [intros [= <-]; eauto | by intros [-> _]].
    + split; [done|]. by intros (_ & t & ? & _).
  - by intros ->.
Qed.

Lemma parse_bo_table_raises_witness :
  parse_bo_table (U:=latin_db) two_group_soup = Return [] ∧
  parse_bo_table (U:=latin_db) bodyless_soup = Raise AttributeError.
Proof.
  split.
  - apply (proj2 (parse_bo_table_raises latin_db two_group_soup)).
    reflexivity.
  - apply (proj1 (parse_bo_table_raises latin_db bodyless_soup) AttributeError).
    split; [reflexivity|]. eexists. split; reflexivity.
Defined.

(** X9: every text field of an owner returned by the owner-table parser
    is absent or holds only ASCII characters. *)
Theorem parse_bo_table_ascii (U : UnicodeData) (s : soup) (bos : list owner_row) :
  parse_bo_table s = Return bos →
  Forall (λ bo, ascii_or_null (row_name bo) ∧ ascii_or_null (row_birth bo) ∧
                ascii_or_null (row_nationality bo) ∧
                ascii_or_null (row_address bo)) bos.
Proof.
  unfold parse_bo_table. destruct (table s) as [t|].
  - destruct (tbody t) as [rows|]; [|done]. intros [= <-].
    apply Forall_flat_map, Forall_forall. intros cols _.
    destruct cols as [|c0 [|c1 [|c2 [|c3 more]]]]; try by constructor.
    constructor; [|constructor]. cbn [row_name row_birth row_nationality row_address].
    repeat split; apply convert_to_english_ascii_or_null.
  - intros [= <-]. constructor.
Qed.

Lemma parse_bo_table_ascii_witness :
  ∃ bos, parse_bo_table (U:=latin_db) sample_soup = Return bos ∧
    Forall (λ bo, ascii_or_null (row_name bo) ∧ ascii_or_null (row_birth bo) ∧
                  ascii_or_null (row_nationality bo) ∧
                  ascii_or_null (row_address bo)) bos.
Proof.
  eexists. split; [vm_compute; reflexivity|].
  apply (parse_bo_table_ascii latin_db sample_soup). vm_compute. reflexivity.
Defined.

(** ** AddressParser, further *)

Lemma get_address_dict (a z c k : option pystr) :
  let d : dict := {[ "Address" := a; "PostalCode" := z;
                     "City" := c; "Country" := k ]}%string in
  get d "Address" = a ∧ get d "PostalCode" = z ∧
  get d "City" = c ∧ get d "Country" = k ∧ dom d = address_keys.
Proof.
  intros d. unfold get, d. split; [by simplify_map_eq|].
  split; [by simplify_map_eq|]. split; [by simplify_map_eq|].
  split; [by simplify_map_eq|].
  unfold address_keys. rewrite !dom_insert_L, dom_singleton_L. set_solver.
Qed.

Lemma split_no_sep (sep : N) (s w : pystr) :
  w ∈ split [sep] s → sep ∉ w.
Proof.
  unfold split. revert w. induction s as [|c s IH]; intros w; simpl.
  - intros ->%list_elem_of_singleton. apply not_elem_of_nil.
  - destruct (N.eqb_spec sep c) as [->|Hne]; simpl.
    + intros [-> | Hw]%elem_of_cons; [apply not_elem_of_nil | by apply IH].
    + destruct (split_from [sep] s 0) as [|w0 ws] eqn:Hs.
      * intros ->%list_elem_of_singleton.
        apply not_elem_of_cons. split; [done | apply not_elem_of_nil].
      * intros [-> | Hw]%elem_of_cons.
        -- apply not_elem_of_cons. split; [done|]. apply IH. by left.
        -- apply IH. by right.
Qed.

Lemma strip_by_elem (q : N → bool) (s : pystr) (c : N) :
  c ∈ strip_by q s → c ∈ s.
Proof.
  unfold strip_by. intros Hc.
  destruct (lstrip_by_suffix q s) as (pre & Hs & _).
  destruct (rstrip_by_prefix q (lstrip_by q s)) as [post Hpost].
  rewrite Hs, Hpost, !elem_of_app. auto.
Qed.

Section AddressMore.
Context {U : UnicodeData}.

Lemma two_digits_inv (s dd r : pystr) :
  two_digits s = Some (dd, r) →
  ∃ d4 d5, s = d4 :: d5 :: r ∧ dd = [d4; d5] ∧
           isdecimal d4 = true ∧ isdecimal d5 = true.
Proof.
  unfold two_digits. destruct s as [|d4 [|d5 rest]]; try done.
  destruct (isdecimal d4) eqn:H4, (isdecimal d5) eqn:H5; try done.
  intros [= <- <-]. by exists d4, d5.
Qed.

Lemma zip_group_inv (s g1 rest : pystr) :
  zip_group s = Some (g1, rest) → s = g1 ++ rest ∧ is_postal_code g1.
Proof.
  unfold zip_group, is_postal_code.
  destruct s as [|d1 [|d2 [|d3 tl]]]; try done.
  destruct (isdecimal d1) eqn:H1, (isdecimal d2) eqn:H2,
           (isdecimal d3) eqn:H3; try done. simpl.
  assert (∀ t dd r, two_digits t = Some (dd, r) →
            t = dd ++ r ∧ ∃ d4 d5, dd = [d4; d5] ∧
            forallb isdecimal [d1; d2; d3; d4; d5] = true) as Hdigits.
  { intros t dd r (d4 & d5 & -> & -> & H4 & H5)%two_digits_inv.
    split; [done|]. exists d4, d5. simpl. by rewrite H1, H2, H3, H4, H5. }
  destruct tl as [|w rest1]; [done|].
  destruct (isspace w) eqn:Hw.
  - destruct (two_digits rest1) as [[dd r]|] eqn:Hsp.
    + intros [= <- <-].
      apply Hdigits in Hsp as (-> & d4 & d5 & -> & Hd).
      split; [done|]. exists d1, d2, d3, [w], d4, d5. eauto 10.
    + destruct (two_digits (w :: rest1)) as [[dd r]|] eqn:Hns; [|done].
      intros [= <- <-].
      apply Hdigits in Hns as (-> & d4 & d5 & -> & Hd).
      split; [done|]. exists d1, d2, d3, [], d4, d5. eauto 10.
  - destruct (two_digits (w :: rest1)) as [[dd r]|] eqn:Hns; [|done].
    intros [= <- <-].
    apply Hdigits in Hns as (-> & d4 & d5 & -> & Hd).
    split; [done|]. exists d1, d2, d3, [], d4, d5. eauto 10.
Qed.

Lemma detect_country_fst (cs : list pystr) (x c : pystr) :
  (detect_country cs x).1 = Some c →
  c ∈ cs ∧ contains (lower c) (lower x) = true.
Proof.
  rewrite detect_country_find.
  destruct (List.find _ cs) as [c'|] eqn:Hfind; [|done].
  intros [= <-]. apply find_some in Hfind as [Hin Hocc].
  split; [by apply list_elem_of_In | done].
Qed.

Lemma detect_country_snd_trimmed (cs : list pystr) (x : pystr) :
  strip x = x → strip (detect_country cs x).2 = (detect_country cs x).2.
Proof.
  intros Hx. rewrite detect_country_find.
  destruct (List.find _ cs); simpl; [apply strip_idemp | done].
Qed.

(** The two ways [parse_address] ends on a non-empty text. *)
Lemma parse_address_cases (full : pystr) :
  full ≠ [] →
  parse_address (Some full) = fallback_address (strip full) ∨
  ∃ street rest g1 g2,
    List.map strip (split [comma] (strip full)) = street :: rest ∧
    zip_match (join (py ", ") rest) = Some (g1, g2) ∧
    parse_address (Some full)
    = {[ "Address" := Some street;
         "PostalCode" := Some (strip g1);
         "City" := match (detect_country countries (strip g2)).2 with
                   | [] => None
                   | _ :: _ => Some (detect_country countries (strip g2)).2
                   end;
         "Country" := (detect_country countries (strip g2)).1 ]}%string.
Proof.
  intros Hne. rewrite parse_address_unfold by done.
  destruct (List.map strip (split [comma] (strip full))) as [|street [|p rest]];
    [by left | by left |].
  destruct (zip_match (join (py ", ") (p :: rest))) as [[g1 g2]|] eqn:Hzip;
    [|by left].
  right. exists street, (p :: rest), g1, g2. split; [done|]. split; [done|].
  by destruct (detect_country countries (strip g2)).
Qed.

End AddressMore.

Lemma parse_address_dom {U : UnicodeData} (full_address : option pystr) :
  (full_address = None ∨ full_address = Some [] →
   dom (parse_address full_address) = ∅) ∧
  (∀ t, full_address = Some t → t ≠ [] →
        dom (parse_address full_address) = address_keys).
Proof.
  split.
  - intros [-> | ->]; apply dom_empty_L.
  - intros t -> Hne.
    destruct (parse_address_cases t Hne) as [-> | (? & ? & ? & ? & _ & _ & ->)].
    + apply get_address_dict.
    + apply get_address_dict.
Qed.

(** X10: the dict returned by the address parser has no key for [None]
    and for the empty text, and exactly the four keys Address,
    PostalCode, City and Country for every other text. *)
Theorem parse_address_keys (U : UnicodeData) (full_address : option pystr) :
  (full_address = None ∨ full_address = Some [] →
   dom (parse_address full_address) = ∅) ∧
  (∀ t, full_address = Some t → t ≠ [] →
        dom (parse_address full_address) = address_keys).
Proof. apply parse_address_dom. Qed.

Lemma parse_address_keys_witness :
  dom (parse_address (U:=latin_db) (Some (py "x"))) = address_keys.
Proof.
  apply (proj2 (parse_address_keys latin_db (Some (py "x"))) (py "x")).
  - reflexivity.
  - discriminate.
Defined.

(** X11: whenever the address parser sets a postal code, the postal code
    is three digits, an optional whitespace character and two digits,
    and the address line is a trimmed text without comma. *)
Theorem parse_address_postal_code
    (U : UnicodeData) (L : UnicodeLaws U) (full_address : option pystr) (zip : pystr) :
  get (parse_address full_address) "PostalCode" = Some zip →
  is_postal_code zip ∧
  ∃ line, get (parse_address full_address) "Address" = Some line ∧
          strip line = line ∧ comma ∉ line.
Proof.
  destruct full_address as [[|c0 t]|]; try done.
  destruct (parse_address_cases (c0 :: t))
    as [-> | (street & rest & g1 & g2 & Hparts & Hzip & ->)]; [done| |].
  { by destruct (get_fallback_address (strip (c0 :: t))) as (_ & -> & _). }
  match goal with
  | |- context [ get ?d ] =>
      destruct (get_address_dict (Some street) (Some (strip g1))
                  (match (detect_country countries (strip g2)).2 with
                   | [] => None
                   | _ :: _ => Some (detect_country countries (strip g2)).2
                   end)
                  (detect_country countries (strip g2)).1)
        as (-> & -> & _)
  end.
  intros [= <-].
  unfold zip_match in Hzip.
  destruct (zip_group (join (py ", ") rest)) as [[g1' r]|] eqn:Hgroup; [|done].
  injection Hzip as -> _.
  apply zip_group_inv in Hgroup as [_ Hg1].
  destruct (postal_code_facts g1 Hg1) as (_ & Hl & Hr & _).
  rewrite (strip_by_id isspace g1 Hl Hr : strip g1 = g1).
  split; [done|]. exists street. split; [done|].
  assert (street ∈ List.map strip (split [comma] (strip (c0 :: t)))) as Hin.
  { rewrite Hparts. by left. }
  apply list_elem_of_In, in_map_iff in Hin as (w & <- & Hw%list_elem_of_In).
  split; [apply strip_idemp|].
  intros Hc%strip_by_elem. by apply (split_no_sep comma _ w Hw).
Qed.

Lemma parse_address_postal_code_witness :
  is_postal_code (U:=latin_db) (py "81101").
Proof.
  apply (parse_address_postal_code latin_db latin_laws
           (Some (py " Hlavna 1 ,81101Bratislava")) (py "81101")).
  vm_compute. reflexivity.
Defined.

(** X12: whenever the address parser sets a country, it is an entry of
    the gazetteer, spelt as in the gazetteer. *)
Theorem parse_address_country_listed
    (U : UnicodeData) (full_address : option pystr) (country : pystr) :
  get (parse_address full_address) "Country" = Some country →
  country ∈ countries.
Proof.
  destruct full_address as [[|c0 t]|]; try done.
  destruct (parse_address_cases (c0 :: t))
    as [-> | (street & rest & g1 & g2 & _ & _ & ->)]; [done| |].
  { by destruct (get_fallback_address (strip (c0 :: t))) as (_ & _ & _ & ->). }
  destruct (get_address_dict (Some street) (Some (strip g1))
              (match (detect_country countries (strip g2)).2 with
               | [] => None
               | _ :: _ => Some (detect_country countries (strip g2)).2
               end)
              (detect_country countries (strip g2)).1)
    as (_ & _ & _ & -> & _).
  by intros [? _]%detect_country_fst.
Qed.

Lemma parse_address_country_listed_witness :
  py "Slovenska republika" ∈ countries.
Proof.
  apply (parse_address_country_listed latin_db
           (Some (py "Hlavna 1, 811 01 Bratislava, slovenska REPUBLIKA"))).
  vm_compute. reflexivity.
Defined.

(** X13: a city returned by the address parser is never the empty text
    and has no whitespace at either end. *)
Theorem parse_address_city_trimmed
    (U : UnicodeData) (full_address : option pystr) (city : pystr) :
  get (parse_address full_address) "City" = Some city →
  city ≠ [] ∧ strip city = city.
Proof.
  destruct full_address as [[|c0 t]|]; try done.
  destruct (parse_address_cases (c0 :: t))
    as [-> | (street & rest & g1 & g2 & _ & _ & ->)]; [done| |].
  { by destruct (get_fallback_address (strip (c0 :: t))) as (_ & _ & -> & _). }
  destruct (get_address_dict (Some street) (Some (strip g1))
              (match (detect_country countries (strip g2)).2 with
               | [] => None
               | _ :: _ => Some (detect_country countries (strip g2)).2
               end)
              (detect_country countries (strip g2)).1)
    as (_ & _ & -> & _).
  pose proof (detect_country_snd_trimmed countries (strip g2) (strip_idemp g2))
    as Htrim.
  destruct (detect_country countries (strip g2)).2 as [|c1 city'] eqn:Hcity;
    [done|].
  intros [= <-]. done.
Qed.

Lemma parse_address_city_trimmed_witness :
  py "Bratislava" ≠ [] ∧ strip (py "Bratislava") = py "Bratislava".
Proof.
  apply (parse_address_city_trimmed latin_db
           (Some (py "Hlavna 1, 811 01   Bratislava  , Slovenska republika"))).
  vm_compute. reflexivity.
Defined.

(** X14: for an address made of a trimmed line without comma, a comma
    and a space, a postal code (three digits, an optional whitespace
    character, two digits), a space, and one or more segments joined by
    a comma and a space, where every segment is non-empty, trimmed and
    holds neither comma nor newline, and where no gazetteer name occurs
    in the joined segments (compared in lower case), the parser returns
    the line, the postal code, no country, and the joined segments as
    the city. *)
Theorem parse_address_no_country
    (U : UnicodeData) (L : UnicodeLaws U)
    (line zip seg : pystr) (segs : list pystr) :
  strip line = line → comma ∉ line →
  is_postal_code zip →
  Forall (λ s, s ≠ [] ∧ strip s = s ∧ (comma ∉ s) ∧ (newline ∉ s)) (seg :: segs) →
  (∀ c, c ∈ countries →
        contains (lower c) (lower (join (py ", ") (seg :: segs))) = false) →
  parse_address
    (Some (line ++ py ", " ++ zip ++ [space] ++ join (py ", ") (seg :: segs)))
  = {[ "Address" := Some line;
       "PostalCode" := Some zip;
       "City" := Some (join (py ", ") (seg :: segs));
       "Country" := None ]}%string.
Proof.
  intros Hline Hlc Hzip Hsegs Hfree.
  rewrite parse_address_shape by done.
  rewrite detect_country_find.
  destruct (List.find _ countries) as [c|] eqn:Hfind.
  - apply find_some in Hfind as [Hin%list_elem_of_In Hocc].
    by rewrite Hfree in Hocc.
  - cbn [fst snd].
    destruct (join (py ", ") (seg :: segs)) as [|c0 tail] eqn:Hjoin; [|done].
    exfalso. inversion Hsegs as [|? ? (Hne & _) _]; subst.
    destruct segs; simpl in Hjoin; [done|].
    by apply app_eq_nil in Hjoin as [? _].
Qed.

Lemma parse_address_no_country_witness :
  parse_address (U:=latin_db) (Some (py "Na Prikope 1, 11000 Praha 1, Cesko"))
  = {[ "Address" := Some (py "Na Prikope 1");
       "PostalCode" := Some (py "11000");
       "City" := Some (py "Praha 1, Cesko");
       "Country" := None ]}%string.
Proof.
  apply (parse_address_no_country latin_db latin_laws
           (py "Na Prikope 1") (py "11000") (py "Praha 1") [py "Cesko"]).
  - reflexivity.
  - apply (bool_decide_unpack _). vm_compute. exact I.
  - exists 49, 49, 48, [], 48, 48. split; [reflexivity|]. split; [reflexivity|].
    by left.
  - repeat constructor; try discriminate;
      apply (bool_decide_unpack _); vm_compute; exact I.
  - intros c Hc.
    assert (forallb (λ c, negb (contains (lower (UnicodeData:=latin_db) c)
              (lower (UnicodeData:=latin_db) (py "Praha 1, Cesko")))) countries = true)
      as Hall by (vm_compute; reflexivity).
    rewrite forallb_forall in Hall.
    by apply negb_true_iff, Hall, list_elem_of_In.
Defined.

(** X15: for a non-empty text of whitespace only, the address parser
    returns the fallback with the empty text, not null, as the address
    line (the empty text itself gives the empty dict). *)
Theorem parse_address_blank (U : UnicodeData) (full_address : pystr) :
  full_address ≠ [] → forallb isspace full_address = true →
  parse_address (Some full_address) = fallback_address [] ∧
  get (parse_address (Some full_address)) "Address" = Some [] ∧
  parse_address (Some full_address) ≠ parse_address (Some []).
Proof.
  intros Hne Hblank.
  assert (strip full_address = []) as Hstrip.
  { unfold strip, strip_by. by rewrite lstrip_by_all. }
  assert (parse_address (Some full_address) = fallback_address []) as ->.
  { rewrite parse_address_unfold by done. by rewrite Hstrip. }
  split; [done|]. split; [apply get_fallback_address|].
  intros Heq. apply (f_equal (λ d : dict, d !! "Address"%string)) in Heq.
  unfold fallback_address in Heq. simpl in Heq. by simplify_map_eq.
Qed.

Lemma parse_address_blank_witness :
  get (parse_address (U:=latin_db) (Some (py "   "))) "Address" = Some [].
Proof.
  apply (parse_address_blank latin_db (py "   ")).
  - discriminate.
  - reflexivity.
Defined.

(** X16: whitespace around an address does not matter: a text that is
    not all whitespace is parsed as its trimmed form is. *)
Theorem parse_address_strip (U : UnicodeData) (full_address : pystr) :
  strip full_address ≠ [] →
  parse_address (Some full_address) = parse_address (Some (strip full_address)).
Proof.
  intros Hne.
  assert (full_address ≠ []) as Hfull by (by intros ->).
  rewrite !parse_address_unfold by done. by rewrite strip_idemp.
Qed.

Lemma parse_address_strip_witness :
  parse_address (U:=latin_db) (Some (py "  Hlavna 1, 811 01 Bratislava "))
  = parse_address (U:=latin_db) (Some (strip (py "  Hlavna 1, 811 01 Bratislava "))).
Proof.
  apply (parse_address_strip latin_db (py "  Hlavna 1, 811 01 Bratislava ")).
  vm_compute. discriminate.
Defined.

(** X17: for an address made of a trimmed line without comma, a comma
    and a space, a postal code (three digits, an optional whitespace
    character, two digits), a space, and one or more segments joined by
    a comma and a space, where every segment is non-empty, trimmed and
    holds neither comma nor newline, the country is the first gazetteer
    entry, in the order of the list, whose lower-case form occurs in the
    lower-cased joined segments (none if there is none), also when later
    entries occur there too. *)
Theorem parse_address_first_country
    (U : UnicodeData) (L : UnicodeLaws U)
    (line zip seg : pystr) (segs : list pystr) :
  strip line = line → comma ∉ line →
  is_postal_code zip →
  Forall (λ s, s ≠ [] ∧ strip s = s ∧ (comma ∉ s) ∧ (newline ∉ s)) (seg :: segs) →
  get (parse_address
        (Some (line ++ py ", " ++ zip ++ [space] ++ join (py ", ") (seg :: segs))))
      "Country"
  = List.find (λ c, contains (lower c) (lower (join (py ", ") (seg :: segs))))
              countries.
Proof.
  intros Hline Hlc Hzip Hsegs.
  rewrite parse_address_shape by done.
  match goal with
  | |- get {[ _ := ?a; _ := ?z; _ := ?c; _ := ?k ]} _ = _ =>
      destruct (get_address_dict a z c k) as (_ & _ & _ & -> & _)
  end.
  rewrite detect_country_find. by destruct (List.find _ countries).
Qed.

Lemma parse_address_first_country_witness :
  get (parse_address (U:=latin_db)
         (Some (py "Main St 5, 123 45 Kanada, Hongkong"))) "Country"
  = Some (py "Hongkong").
Proof.
  refine (eq_trans
    (parse_address_first_country latin_db latin_laws
       (py "Main St 5") (py "123 45") (py "Kanada") [py "Hongkong"] _ _ _ _) _).
  - reflexivity.
  - apply (bool_decide_unpack _). vm_compute. exact I.
  - exists 49, 50, 51, [32], 52, 53. split; [reflexivity|]. split; [reflexivity|].
    right. by exists 32.
  - repeat constructor; try discriminate;
      apply (bool_decide_unpack _); vm_compute; exact I.
  - vm_compute. reflexivity.
Defined.

(** ** PageExtractor: [scrape_partner], further *)

Section ScrapeMore.
Context {U : UnicodeData} {W : World}.

(** What a returned Record is made of. *)
Lemma scrape_partner_record (partner_id : Z) (r : record) :
  scrape_partner partner_id = Return (Some r) →
  ∃ response soup bo bos,
    requests_get (detail_url partner_id) = Return response ∧
    status_code response = 200%Z ∧
    BeautifulSoup (convert_to_english (Some (text response))) = Return soup ∧
    parse_bo_table soup = Return (bo :: bos) ∧
    r = {| BusinessName := convert_to_english (get_field soup label_name);
           ICO := convert_to_english (get_field soup label_ico);
           Address := parse_address (convert_to_english (get_field soup label_address));
           VerificationDate := convert_to_english (get_field soup label_date);
           VerificationDocumentURL := convert_to_english (get_pdf_url soup label_pdf);
           BeneficialOwners := List.map parse_owner_address (bo :: bos);
           SourceURL := detail_url partner_id |}.
Proof.
  unfold scrape_partner.
  destruct (requests_get (detail_url partner_id)) as [response|e]; [|done].
  cbn [mbind result_bind].
  destruct (Z.eqb_spec (status_code response) 200) as [Hst|Hst]; [|done].
  cbn [negb].
  destruct (BeautifulSoup (convert_to_english (Some (text response))))
    as [soup|e] eqn:Hsoup; [|done].
  cbn [mbind result_bind].
  destruct (parse_bo_table soup) as [[|bo bos]|e] eqn:Hbos; try done.
  cbn [mbind result_bind]. intros [= <-]. by exists response, soup, bo, bos.
Qed.

End ScrapeMore.

(** X18: [scrape_partner] raises exactly when the fetch raises, or the
    fetch gives status 200 and either the HTML parser raises or the
    owner-table parser does; a page with another status never makes it
    raise. *)
Theorem scrape_partner_raises
    (U : UnicodeData) (W : World) (partner_id : Z) (e : exn) :
  scrape_partner partner_id = Raise e ↔
  requests_get (detail_url partner_id) = Raise e ∨
  ∃ response,
    requests_get (detail_url partner_id) = Return response ∧
    status_code response = 200%Z ∧
    (BeautifulSoup (convert_to_english (Some (text response))) = Raise e ∨
     ∃ soup,
       BeautifulSoup (convert_to_english (Some (text response))) = Return soup ∧
       parse_bo_table soup = Raise e).
Proof.
  unfold scrape_partner.
  destruct (requests_get (detail_url partner_id)) as [response|e0];
    cbn [mbind result_bind].
  2:{ split; [intros ?; left; congruence|].
      intros [? | (? & ? & _)]; congruence. }
  destruct (Z.eqb_spec (status_code response) 200) as [Hst|Hst]; cbn [negb].
  2:{ split; [done|]. intros [? | (? & [= <-] & ? & _)]; done. }
  destruct (BeautifulSoup (convert_to_english (Some (text response))))
    as [soup|e1] eqn:Hsoup; cbn [mbind result_bind].
  2:{ split.
      - intros [= <-]. right. exists response. eauto.
      - intros [? | (? & [= <-] & _ & [Hr | (? & Hr & _)])]; congruence. }
  destruct (parse_bo_table soup) as [[|bo bos]|e2] eqn:Hbos; cbn [mbind result_bind].
  - split; [done|].
    intros [? | (? & [= <-] & _ & [Hr | (? & Hr & Hp)])]; congruence.
  - split; [done|].
    intros [? | (? & [= <-] & _ & [Hr | (? & Hr & Hp)])]; congruence.
  - split.
    + intros [= <-]. right. exists response. split; [done|]. split; [done|].
      right. by exists soup.
    + intros [? | (? & [= <-] & _ & [Hr | (? & Hr & Hp)])]; congruence.
Qed.

Lemma scrape_partner_raises_witness :
  scrape_partner (U:=latin_db) (W:=bodyless_world) 4 = Raise AttributeError.
Proof.
  apply (proj2 (scrape_partner_raises latin_db bodyless_world 4 AttributeError)).
  right. exists {| status_code := 200; text := py "<html>" |}.
  split; [reflexivity|]. split; [reflexivity|].
  right. exists bodyless_soup. split; reflexivity.
Defined.

(** X19: when the labels of the document that the fetched page parses
    to are all ASCII text (as in a page normalised before parsing that
    uses no character references), none of the scalar lookups finds its
    label, which is spelt with a diacritic: the Record returned for that
    page has no business name, registration number, verification date
    or document URL, and the empty dict as address. *)
Theorem scrape_partner_scalar_fields
    (U : UnicodeData) (W : World)
    (partner_id : Z) (response : response) (s : soup) (r : record) :
  requests_get (detail_url partner_id) = Return response →
  BeautifulSoup (convert_to_english (Some (text response))) = Return s →
  ascii_labels s →
  scrape_partner partner_id = Return (Some r) →
  BusinessName r = None ∧ ICO r = None ∧ Address r = ∅ ∧
  VerificationDate r = None ∧ VerificationDocumentURL r = None.
Proof.
  intros Hget Hs Hascii
    (response' & s' & bo & bos & Hget' & _ & Hs' & _ & ->)%scrape_partner_record.
  rewrite Hget in Hget'. injection Hget' as <-.
  rewrite Hs in Hs'. injection Hs' as <-.
  cbn [BusinessName ICO Address VerificationDate VerificationDocumentURL].
  destruct (ascii_labels_miss_all s Hascii) as (-> & -> & -> & -> & ->).
  done.
Qed.

Lemma scrape_partner_scalar_fields_witness :
  ∃ r, scrape_partner (U:=latin_db) (W:=labelled_world) 5 = Return (Some r) ∧
       BusinessName r = None ∧ ICO r = None ∧ Address r = ∅ ∧
       VerificationDate r = None ∧ VerificationDocumentURL r = None.
Proof.
  eexists. split; [vm_compute; reflexivity|].
  apply (scrape_partner_scalar_fields latin_db labelled_world 5
           {| status_code := 200; text := py "<html>" |} labelled_soup).
  - reflexivity.
  - reflexivity.
  - intros group l Hgroup Hl.
    repeat (apply elem_of_cons in Hgroup as [-> | Hgroup];
            [injection Hl as <-; reflexivity|]).
    by apply elem_of_nil in Hgroup.
  - vm_compute. reflexivity.
Defined.

(** X20: a Record returned by [scrape_partner] has one owner for each
    row of the owner table with at least four cells, in the order of
    the rows, and each owner's address is a parsed address: a dict with
    no key or with the four address keys. *)
Theorem scrape_partner_owner_rows
    (U : UnicodeData) (W : World) (partner_id : Z) (r : record) :
  scrape_partner partner_id = Return (Some r) →
  ∃ response s t rows,
    requests_get (detail_url partner_id) = Return response ∧
    BeautifulSoup (convert_to_english (Some (text response))) = Return s ∧
    table s = Some t ∧ tbody t = Some rows ∧
    length (BeneficialOwners r) = length (List.filter wide_row rows) ∧
    BeneficialOwners r
      = List.map parse_owner_address (flat_map parse_bo_row rows) ∧
    Forall (λ o, dom (AddressOfTheBO o) = ∅ ∨
                 dom (AddressOfTheBO o) = address_keys) (BeneficialOwners r).
Proof.
  intros (response & s & bo & bos & Hget & _ & Hs & Hbos & ->)%scrape_partner_record.
  unfold parse_bo_table in Hbos.
  destruct (table s) as [t|] eqn:Ht; [|done].
  destruct (tbody t) as [rows|] eqn:Hrows; [|done].
  injection Hbos as Hbos.
  exists response, s, t, rows. repeat (split; [done|]).
  cbn [BeneficialOwners]. rewrite <- Hbos.
  split; [|split; [done|]].
  - rewrite length_map. apply flat_map_parse_bo_row_length.
  - apply Forall_forall. intros o (bo' & <- & _)%list_elem_of_In%in_map_iff.
    cbn [parse_owner_address AddressOfTheBO].
    destruct (row_address bo') as [[|c0 a]|] eqn:Ha.
    + left. apply dom_empty_L.
    + right. apply (proj2 (parse_address_dom (Some (c0 :: a))) (c0 :: a));
        done.
    + left. apply dom_empty_L.
Qed.

Lemma scrape_partner_owner_rows_witness :
  ∃ r, scrape_partner (U:=latin_db) (W:=labelled_world) 5 = Return (Some r) ∧
       length (BeneficialOwners r) = 1%nat.
Proof.
  eexists. split; [vm_compute; reflexivity|].
  destruct (scrape_partner_owner_rows latin_db labelled_world 5 _
              ltac:(vm_compute; reflexivity))
    as (response & s & t & rows & _ & [= <-] & [= <-] & [= <-] & Hlen & _).
  exact Hlen.
Defined.

(** ** CrawlController, further *)

(** *** The sort of the cache file *)

Lemma insert_keyed_perm (kx : Z * pystr) (l : list (Z * pystr)) :
  insert_keyed kx l ≡ₚ kx :: l.
Proof.
  induction l as [|ky l IH]; simpl; [done|].
  destruct (fst kx <=? fst ky)%Z; [done|].
  rewrite IH. apply Permutation_swap.
Qed.

Lemma insert_keyed_sorted (kx : Z * pystr) (l : list (Z * pystr)) :
  StronglySorted (λ a b, (a.1 ≤ b.1)%Z) l →
  StronglySorted (λ a b, (a.1 ≤ b.1)%Z) (insert_keyed kx l).
Proof.
  induction 1 as [|ky l Hl IH Hky]; simpl.
  - repeat constructor.
  - destruct (Z.leb_spec (fst kx) (fst ky)) as [Hle|Hlt].
    + constructor; [by constructor|].
      constructor; [done|].
      eapply Forall_impl; [exact Hky|]. simpl. intros. lia.
    + constructor; [done|].
      rewrite insert_keyed_perm. constructor; [lia | done].
Qed.

Lemma sort_keyed_perm (kl : list (Z * pystr)) :
  foldr insert_keyed [] kl ≡ₚ kl.
Proof.
  induction kl as [|kx kl IH]; simpl; [done|].
  by rewrite insert_keyed_perm, IH.
Qed.

Lemma sort_keyed_sorted (kl : list (Z * pystr)) :
  StronglySorted (λ a b, (a.1 ≤ b.1)%Z) (foldr insert_keyed [] kl).
Proof.
  induction kl as [|kx kl IH]; simpl; [constructor|].
  by apply insert_keyed_sorted.
Qed.

Section SortFacts.
Context {U : UnicodeData}.

Lemma keyed_Return (l : list pystr) (kl : list (Z * pystr)) :
  keyed l = Return kl →
  kl.*2 = l ∧ Forall (λ kx, url_key kx.2 = Return kx.1) kl.
Proof.
  revert kl. induction l as [|x l IH]; intros kl; simpl.
  - intros [= <-]. by split.
  - destruct (url_key x) as [k|e] eqn:Hk; [|done]. cbn [mbind result_bind].
    destruct (keyed l) as [kl'|e]; [|done]. cbn [mbind result_bind].
    intros [= <-]. destruct (IH kl' eq_refl) as [<- Hkeys].
    split; [done|]. by constructor.
Qed.

Lemma keyed_total (l : list pystr) :
  (∀ x, x ∈ l → ∃ k, url_key x = Return k) → ∃ kl, keyed l = Return kl.
Proof.
  induction l as [|x l IH]; intros Hl; simpl; [by eexists|].
  destruct (Hl x) as [k ->]; [by left|]. cbn [mbind result_bind].
  destruct IH as [kl ->]; [intros y Hy; apply Hl; by right|].
  by eexists.
Qed.

Lemma keyed_Raise (l : list pystr) (x : pystr) (e : exn) :
  x ∈ l → url_key x = Raise e → ∃ e', keyed l = Raise e'.
Proof.
  intros Hx He. induction l as [|y l IH]; [by apply elem_of_nil in Hx|].
  simpl. destruct (url_key y) as [k|e'] eqn:Hk; [|by eexists].
  cbn [mbind result_bind].
  apply elem_of_cons in Hx as [-> | Hx]; [congruence|].
  destruct (IH Hx) as [e' ->]. by eexists.
Qed.

Lemma sorted_by_key_Return (l l' : list pystr) :
  sorted_by_key l = Return l' →
  l' ≡ₚ l ∧
  ∃ keys, Forall2 (λ x k, url_key x = Return k) l' keys ∧
          StronglySorted Z.le keys.
Proof.
  unfold sorted_by_key.
  destruct (keyed l) as [kl|e] eqn:Hkl; [|done]. cbn [mbind result_bind].
  intros [= <-]. apply keyed_Return in Hkl as [<- Hkeys].
  pose proof (sort_keyed_perm kl) as Hperm.
  pose proof (sort_keyed_sorted kl) as Hsorted.
  rewrite <- Hperm in Hkeys.
  split; [by rewrite Hperm|].
  exists ((foldr insert_keyed [] kl).*1). split.
  - clear Hperm Hsorted.
    induction Hkeys as [|[k x] kl' Hk _ IH]; simpl; [constructor|].
    by constructor.
  - clear Hperm Hkeys.
    induction Hsorted as [|[k x] kl' _ IH Hk]; simpl; constructor; [done|].
    apply Forall_fmap. eapply Forall_impl; [exact Hk|]. done.
Qed.

End SortFacts.

(** X21: what is written to the cache file holds exactly the URLs to
    sort, each as often, in ascending order of the number after the
    last slash; sorting succeeds when that number can be read for every
    URL, and fails as soon as it cannot be read for one. *)
Theorem sorted_by_key_sorted (U : UnicodeData) (l : list pystr) :
  (∀ l', sorted_by_key l = Return l' →
         l' ≡ₚ l ∧
         ∃ keys, Forall2 (λ x k, url_key x = Return k) l' keys ∧
                 StronglySorted Z.le keys) ∧
  ((∀ x, x ∈ l → ∃ k, url_key x = Return k) → ∃ l', sorted_by_key l = Return l') ∧
  (∀ x e, x ∈ l → url_key x = Raise e → ∃ e', sorted_by_key l = Raise e').
Proof.
  split; [apply sorted_by_key_Return|]. split.
  - intros [kl Hkl]%keyed_total. unfold sorted_by_key. rewrite Hkl. by eexists.
  - intros x e Hx He. destruct (keyed_Raise l x e Hx He) as [e' Hkl].
    unfold sorted_by_key. rewrite Hkl. by eexists.
Qed.

Lemma sorted_by_key_sorted_witness :
  sorted_by_key (U:=latin_db) [detail_url 12; detail_url 3; detail_url 7]
  = Return [detail_url 3; detail_url 7; detail_url 12] ∧
  [detail_url 3; detail_url 7; detail_url 12]
    ≡ₚ [detail_url 12; detail_url 3; detail_url 7] ∧
  ∃ e', sorted_by_key (U:=latin_db) [detail_url 3; py "no number"] = Raise e'.
Proof.
  split; [vm_compute; reflexivity|]. split.
  - apply (proj1 (sorted_by_key_sorted latin_db
                    [detail_url 12; detail_url 3; detail_url 7])).
    vm_compute. reflexivity.
  - apply (proj2 (proj2 (sorted_by_key_sorted latin_db
                           [detail_url 3; py "no number"]))
             (py "no number") ValueError).
    + right. by left.
    + vm_compute. reflexivity.
Defined.

(** *** The loop and the files *)

Section RunMore.
Context {U : UnicodeData} {W : World}.

Lemma step_cached (st : state) (partner_id : Z) :
  detail_url partner_id ∈ processed_ids st →
  step st partner_id = add_log (LogSkipped (detail_url partner_id)) st.
Proof. intros Hin. unfold step. by rewrite bool_decide_eq_true_2. Qed.

Lemma foldl_step_cached (ids : list Z) (st : state) :
  (∀ partner_id, partner_id ∈ ids → detail_url partner_id ∈ processed_ids st) →
  all_data (foldl step st ids) = all_data st ∧
  processed_ids (foldl step st ids) = processed_ids st ∧
  cache_file (foldl step st ids) = cache_file st ∧
  output_file (foldl step st ids) = output_file st ∧
  log (foldl step st ids) = log st ++ (LogSkipped ∘ detail_url <$> ids).
Proof.
  revert st. induction ids as [|partner_id ids IH]; intros st Hids; simpl.
  - by rewrite app_nil_r.
  - rewrite step_cached by (apply Hids; by left).
    destruct (IH (add_log (LogSkipped (detail_url partner_id)) st))
      as (-> & -> & -> & -> & ->).
    { intros id Hid. apply Hids. by right. }
    simpl. by rewrite <- (assoc_L (++)).
Qed.

Lemma step_ids_grow (st : state) (partner_id : Z) :
  processed_ids st ⊆ processed_ids (step st partner_id).
Proof.
  destruct (step_stores st partner_id)
    as [(_ & data & _ & _ & ->) | (_ & _ & ->)]; set_solver.
Qed.

Lemma step_unique_sources (st : state) (partner_id : Z) :
  unique_sources st → unique_sources (step st partner_id).
Proof.
  intros [Hnd Hin].
  destruct (step_stores st partner_id)
    as [(Hnew & data & Hscrape & Hd & Hp) | (_ & Hd & Hp)];
    unfold unique_sources; rewrite Hd, Hp; [|done].
  apply scrape_partner_inv in Hscrape as (? & ? & ? & ? & _ & _ & _ & _ & _ & Hurl).
  split.
  - rewrite fmap_app. apply NoDup_app. split; [done|]. split.
    + intros u (r & Hu & Hr)%list_elem_of_fmap Hu'%list_elem_of_singleton.
      apply Hnew. rewrite <- Hurl, <- Hu', Hu. by apply Hin.
    + apply NoDup_singleton.
  - intros r [Hr | ->%list_elem_of_singleton]%elem_of_app.
    + apply elem_of_union. right. by apply Hin.
    + apply elem_of_union. left. by apply elem_of_singleton.
Qed.

Lemma foldl_step_unique_sources (ids : list Z) (st : state) :
  unique_sources st → unique_sources (foldl step st ids).
Proof.
  revert st. induction ids as [|partner_id ids IH]; intros st Hst; [done|].
  simpl. by apply IH, step_unique_sources.
Qed.

Lemma foldl_step_appends (ids : list Z) (st : state) :
  ∃ new,
    all_data (foldl step st ids) = all_data st ++ new ∧
    (SourceURL <$> new) `sublist_of` (detail_url <$> ids) ∧
    processed_ids st ⊆ processed_ids (foldl step st ids).
Proof.
  revert st. induction ids as [|partner_id ids IH]; intros st; simpl.
  - exists []. by rewrite app_nil_r.
  - destruct (IH (step st partner_id)) as (new & Hd & Hsub & Hids).
    pose proof (step_ids_grow st partner_id) as Hgrow.
    destruct (step_stores st partner_id)
      as [(_ & data & Hscrape & Hd' & _) | (_ & Hd' & _)].
    + exists (data :: new). rewrite Hd, Hd', <- (assoc_L (++)).
      split; [done|]. split; [|set_solver].
      apply scrape_partner_inv in Hscrape
        as (? & ? & ? & ? & _ & _ & _ & _ & _ & Hurl).
      simpl. rewrite Hurl. by apply sublist_skip.
    + exists new. rewrite Hd, Hd'.
      split; [done|]. split; [by apply sublist_cons | set_solver].
Qed.

(** How [save_cache] and [save_output] end. *)
Lemma save_cache_outcome (partner_id : Z) (st : state) :
  save_cache partner_id st
  = match fs_write CacheFile partner_id,
          sorted_by_key (elements (processed_ids st)) with
    | OpenFails, _ => (st, Raise OSError)
    | _, Raise e => (set_cache_file Torn st, Raise e)
    | WriteOk, Return urls => (set_cache_file (Stored urls) st, Return ())
    | DumpFails, Return _ => (set_cache_file Torn st, Raise OSError)
    end.
Proof.
  unfold save_cache.
  destruct (fs_write CacheFile partner_id);
    unfold mbind, prog_bind, modify, read, lift; simpl;
    try destruct (sorted_by_key (elements (processed_ids st))); done.
Qed.

Lemma save_output_outcome (partner_id : Z) (st : state) :
  save_output partner_id st
  = match fs_write OutputFile partner_id with
    | OpenFails => (st, Raise OSError)
    | WriteOk => (set_output_file (Stored (all_data st)) st, Return ())
    | DumpFails => (set_output_file Torn st, Raise OSError)
    end.
Proof. unfold save_output. by destruct (fs_write OutputFile partner_id). Qed.

(** The [try] block after a successful extraction, in full. *)
Lemma try_body_unfold (partner_id : Z) (url : pystr) (st : state) (data : record) :
  scrape_partner partner_id = Return (Some data) →
  try_body partner_id url st
  = let st1 := set_processed_ids ({[ url ]} ∪ processed_ids st)
                 (add_log (LogSaved partner_id (BusinessName data))
                    (set_all_data (all_data st ++ [data]) st)) in
    match save_cache partner_id st1 with
    | (st2, Return _) =>
        match save_output partner_id st2 with
        | (st3, Return _) => (st3, sleep partner_id)
        | (st3, Raise e) => (st3, Raise e)
        end
    | (st2, Raise e) => (st2, Raise e)
    end.
Proof.
  intros Hscrape. unfold try_body. rewrite Hscrape.
  unfold mbind at 1. unfold prog_bind at 1. unfold lift at 1.
  unfold mbind, prog_bind, modify, lift. simpl.
  destruct (save_cache partner_id _) as [st2 [[]|e]]; [|done].
  by destruct (save_output partner_id st2) as [st3 [[]|e]].
Qed.

(** What one iteration can leave in the two files. *)
Lemma step_files (st : state) (partner_id : Z) :
  (cache_file (step st partner_id) = cache_file st ∨
   cache_file (step st partner_id) = Torn ∨
   ∃ urls, cache_file (step st partner_id) = Stored urls ∧
           urls ≡ₚ elements (processed_ids (step st partner_id))) ∧
  (output_file (step st partner_id) = output_file st ∨
   output_file (step st partner_id) = Torn ∨
   output_file (step st partner_id) = Stored (all_data (step st partner_id))).
Proof.
  unfold step. case_bool_decide as Hin; [by split; left|].
  unfold try_except.
  destruct (scrape_partner partner_id) as [[data|]|e] eqn:Hscrape.
  - rewrite (try_body_unfold _ _ _ data Hscrape). cbv zeta.
    rewrite save_cache_outcome.
    destruct (fs_write CacheFile partner_id);
      [|by split; left|];
      (destruct (sorted_by_key _) as [urls|e] eqn:Hsort;
       [|split; [right; by left | by left]]).
    + rewrite save_output_outcome.
      apply sorted_by_key_Return in Hsort as [Hperm _].
      destruct (fs_write OutputFile partner_id);
        [destruct (sleep partner_id) as [[]|e']| |];
        simpl; split; eauto 10.
    + split; [right; by left | by left].
  - rewrite try_body_nothing by done. by split; left.
  - rewrite (try_body_raised _ _ _ e) by done. by split; left.
Qed.

Lemma step_cache_file_known (st : state) (partner_id : Z) :
  cache_file_known st → cache_file_known (step st partner_id).
Proof.
  intros Hknown urls Hfile u Hu.
  destruct (step_files st partner_id) as [[Hc | [Hc | (urls' & Hc & Hperm)]] _].
  - apply (step_ids_grow st partner_id). rewrite Hc in Hfile. by eapply Hknown.
  - congruence.
  - rewrite Hc in Hfile. injection Hfile as <-.
    rewrite Hperm in Hu. by apply elem_of_elements in Hu.
Qed.

Lemma foldl_step_cache_file_known (ids : list Z) (st : state) :
  cache_file_known st → cache_file_known (foldl step st ids).
Proof.
  revert st. induction ids as [|partner_id ids IH]; intros st Hst; [done|].
  simpl. by apply IH, step_cache_file_known.
Qed.

(** One iteration in which the extraction and both writes succeed. *)
Lemma step_all_ok (st : state) (partner_id : Z) (data : record) :
  detail_url partner_id ∉ processed_ids st →
  scrape_partner partner_id = Return (Some data) →
  fs_write CacheFile partner_id = WriteOk →
  fs_write OutputFile partner_id = WriteOk →
  (∀ u, u ∈ {[ detail_url partner_id ]} ∪ processed_ids st →
        ∃ k, url_key u = Return k) →
  ∃ urls,
    sorted_by_key (elements ({[ detail_url partner_id ]} ∪ processed_ids st))
      = Return urls ∧
    all_data (step st partner_id) = all_data st ++ [data] ∧
    processed_ids (step st partner_id)
      = {[ detail_url partner_id ]} ∪ processed_ids st ∧
    cache_file (step st partner_id) = Stored urls ∧
    output_file (step st partner_id) = Stored (all_data st ++ [data]).
Proof.
  intros Hnew Hscrape Hc Ho Hkeys.
  destruct (keyed_total (elements ({[detail_url partner_id]} ∪ processed_ids st)))
    as [kl Hkl].
  { intros x Hx%elem_of_elements. by apply Hkeys. }
  eexists. split; [unfold sorted_by_key; by rewrite Hkl|].
  unfold step. rewrite bool_decide_eq_false_2 by done.
  unfold try_except. rewrite (try_body_unfold _ _ _ data Hscrape). cbv zeta.
  rewrite save_cache_outcome, Hc. simpl.
  unfold sorted_by_key at 1 2 3 4. rewrite Hkl. simpl.
  rewrite save_output_outcome, Ho. simpl.
  by destruct (sleep partner_id) as [[]|e'].
Qed.

End RunMore.

(** X22: a run over IDs that are all cached fetches nothing and writes
    nothing: whatever the world is, the collection, the cache and both
    files stay as they were, and one skip is logged per ID, in ascending
    order. *)
Theorem run_all_cached
    (U : UnicodeData) (W : World) (start end_ : Z) (st : state) :
  (∀ partner_id, (start ≤ partner_id ≤ end_)%Z →
                 detail_url partner_id ∈ processed_ids st) →
  all_data (run start end_ st) = all_data st ∧
  processed_ids (run start end_ st) = processed_ids st ∧
  cache_file (run start end_ st) = cache_file st ∧
  output_file (run start end_ st) = output_file st ∧
  log (run start end_ st)
    = log st ++ (LogSkipped ∘ detail_url <$> seqZ start (end_ + 1 - start)).
Proof.
  intros Hcached. apply foldl_step_cached.
  intros partner_id Hid%elem_of_seqZ. apply Hcached. lia.
Qed.

Lemma run_all_cached_witness :
  all_data (run (U:=latin_db) (W:=calm_world) 1 2 resumed_state) = [] ∧
  log (run (U:=latin_db) (W:=calm_world) 1 2 resumed_state)
    = [LogSkipped (detail_url 1); LogSkipped (detail_url 2)].
Proof.
  destruct (run_all_cached latin_db calm_world 1 2 resumed_state)
    as (Hd & _ & _ & _ & Hl).
  - intros partner_id Hid.
    assert (partner_id = 1 ∨ partner_id = 2)%Z as [-> | ->] by lia;
      apply (bool_decide_unpack _); vm_compute; exact I.
  - split; [exact Hd | exact Hl].
Defined.

(** X23: a run keeps the source URL a unique key: if no two Records of
    the collection share a source URL and every Record's URL is cached,
    the same holds after the run. *)
Theorem run_unique_sources
    (U : UnicodeData) (W : World) (start end_ : Z) (st : state) :
  unique_sources st → unique_sources (run start end_ st).
Proof. apply foldl_step_unique_sources. Qed.

Lemma run_unique_sources_witness :
  unique_sources (run (U:=latin_db) (W:=patchy_world) 1 3 fresh_state).
Proof.
  apply (run_unique_sources latin_db patchy_world 1 3 fresh_state).
  split; [constructor|]. intros r Hr. by apply elem_of_nil in Hr.
Defined.

(** X24: a run only appends to the collection: the Records it starts
    with stay in place, the new ones follow in ascending order of their
    IDs (their source URLs are, in order, URLs of IDs of the range), and
    no URL leaves the cache. *)
Theorem run_appends
    (U : UnicodeData) (W : World) (start end_ : Z) (st : state) :
  ∃ new,
    all_data (run start end_ st) = all_data st ++ new ∧
    (SourceURL <$> new)
      `sublist_of` (detail_url <$> seqZ start (end_ + 1 - start)) ∧
    processed_ids st ⊆ processed_ids (run start end_ st).
Proof. apply foldl_step_appends. Qed.

(** X25: after an iteration in which the extraction and both writes
    succeed (and the trailing number of every cached URL can be read),
    the output file holds the whole collection with the new Record
    last, and the cache file holds exactly the cached URLs, the new one
    included, in ascending order of their trailing numbers. *)
Theorem step_saved_files
    (U : UnicodeData) (W : World) (st : state) (partner_id : Z) (data : record) :
  detail_url partner_id ∉ processed_ids st →
  scrape_partner partner_id = Return (Some data) →
  fs_write CacheFile partner_id = WriteOk →
  fs_write OutputFile partner_id = WriteOk →
  (∀ u, u ∈ {[ detail_url partner_id ]} ∪ processed_ids st →
        ∃ k, url_key u = Return k) →
  output_file (step st partner_id) = Stored (all_data st ++ [data]) ∧
  ∃ urls keys,
    cache_file (step st partner_id) = Stored urls ∧
    urls ≡ₚ elements ({[ detail_url partner_id ]} ∪ processed_ids st) ∧
    Forall2 (λ x k, url_key x = Return k) urls keys ∧
    StronglySorted Z.le keys.
Proof.
  intros Hnew Hscrape Hc Ho Hkeys.
  destruct (step_all_ok st partner_id data Hnew Hscrape Hc Ho Hkeys)
    as (urls & Hsort & _ & _ & Hcache & Hout).
  split; [done|].
  apply sorted_by_key_Return in Hsort as (Hperm & keys & Hk & Hsorted).
  by exists urls, keys.
Qed.

Lemma step_saved_files_witness :
  ∃ data,
    output_file (step (U:=latin_db) (W:=calm_world) resumed_state 3)
      = Stored [data] ∧
    ∃ urls, cache_file (step (U:=latin_db) (W:=calm_world) resumed_state 3)
            = Stored urls.
Proof.
  assert (∃ data, scrape_partner (U:=latin_db) (W:=calm_world) 3
                  = Return (Some data)) as [data Hdata].
  { eexists. vm_compute. reflexivity. }
  destruct (step_saved_files latin_db calm_world resumed_state 3 data)
    as (Hout & urls & keys & Hcache & _).
  - apply (bool_decide_unpack _). vm_compute. exact I.
  - exact Hdata.
  - reflexivity.
  - reflexivity.
  - intros u [->%elem_of_singleton | [->%elem_of_singleton | ->%elem_of_singleton]%elem_of_union]%elem_of_union;
      eexists; vm_compute; reflexivity.
  - exists data. split; [exact Hout|]. by exists urls.
Defined.

(** X26: one cached URL whose trailing segment is not a number makes
    every later save fail: the new Record stays in memory and a warning
    is logged, the output file is not rewritten, and the cache file is
    left as it was (when it cannot be opened) or truncated. *)
Theorem step_bad_cache_entry
    (U : UnicodeData) (W : World)
    (st : state) (partner_id : Z) (data : record) (x : pystr) (e0 : exn) :
  detail_url partner_id ∉ processed_ids st →
  scrape_partner partner_id = Return (Some data) →
  x ∈ processed_ids st → url_key x = Raise e0 →
  all_data (step st partner_id) = all_data st ++ [data] ∧
  output_file (step st partner_id) = output_file st ∧
  (cache_file (step st partner_id) = Torn ∨
   cache_file (step st partner_id) = cache_file st) ∧
  ∃ e, log (step st partner_id)
       = log st ++ [LogSaved partner_id (BusinessName data);
                    LogWarning partner_id e].
Proof.
  intros Hnew Hscrape Hx Hkey.
  destruct (keyed_Raise (elements ({[detail_url partner_id]} ∪ processed_ids st))
              x e0) as [e' Hkl]; [|done|].
  { apply elem_of_elements, elem_of_union. by right. }
  unfold step. rewrite bool_decide_eq_false_2 by done.
  unfold try_except. rewrite (try_body_unfold _ _ _ data Hscrape). cbv zeta.
  rewrite save_cache_outcome. simpl.
  unfold sorted_by_key. rewrite Hkl. simpl.
  destruct (fs_write CacheFile partner_id); simpl;
    rewrite <- (assoc_L (++)); eauto 10.
Qed.

Lemma step_bad_cache_entry_witness :
  ∃ data,
    all_data (step (U:=latin_db) (W:=calm_world) legacy_state 1) = [data] ∧
    output_file (step (U:=latin_db) (W:=calm_world) legacy_state 1) = Stored [].
Proof.
  assert (∃ data, scrape_partner (U:=latin_db) (W:=calm_world) 1
                  = Return (Some data)) as [data Hdata].
  { eexists. vm_compute. reflexivity. }
  destruct (step_bad_cache_entry latin_db calm_world legacy_state 1 data
              (py "https://rpvs.gov.sk/legacy") ValueError)
    as (Hd & Hout & _).
  - apply (bool_decide_unpack _). vm_compute. exact I.
  - exact Hdata.
  - apply (bool_decide_unpack _). vm_compute. exact I.
  - vm_compute. reflexivity.
  - exists data. split; [exact Hd | exact Hout].
Defined.

(** X27: what an iteration saves can be loaded again: after an
    iteration in which the extraction and both writes succeed,
    constructing a scraper from the two files gives the same collection
    and the same cache. *)
Theorem saved_state_reloads
    (U : UnicodeData) (W : World) (st : state) (partner_id : Z) (data : record) :
  detail_url partner_id ∉ processed_ids st →
  scrape_partner partner_id = Return (Some data) →
  fs_write CacheFile partner_id = WriteOk →
  fs_write OutputFile partner_id = WriteOk →
  (∀ u, u ∈ {[ detail_url partner_id ]} ∪ processed_ids st →
        ∃ k, url_key u = Return k) →
  ∃ st',
    init (cache_file (step st partner_id)) (output_file (step st partner_id))
         (Return ()) (Return ()) = Return st' ∧
    all_data st' = all_data (step st partner_id) ∧
    processed_ids st' = processed_ids (step st partner_id).
Proof.
  intros Hnew Hscrape Hc Ho Hkeys.
  destruct (step_all_ok st partner_id data Hnew Hscrape Hc Ho Hkeys)
    as (urls & Hsort & -> & -> & -> & ->).
  apply sorted_by_key_Return in Hsort as (Hperm & _).
  eexists. split; [reflexivity|]. split; [done|]. simpl.
  apply set_eq. intros u.
  by rewrite elem_of_list_to_set, Hperm, elem_of_elements.
Qed.

Lemma saved_state_reloads_witness :
  ∃ st',
    init (cache_file (step (U:=latin_db) (W:=calm_world) fresh_state 1))
         (output_file (step (U:=latin_db) (W:=calm_world) fresh_state 1))
         (Return ()) (Return ()) = Return st' ∧
    all_data st' = all_data (step (U:=latin_db) (W:=calm_world) fresh_state 1) ∧
    processed_ids st'
      = processed_ids (step (U:=latin_db) (W:=calm_world) fresh_state 1).
Proof.
  assert (∃ data, scrape_partner (U:=latin_db) (W:=calm_world) 1
                  = Return (Some data)) as [data Hdata].
  { eexists. vm_compute. reflexivity. }
  apply (saved_state_reloads latin_db calm_world fresh_state 1 data).
  - apply not_elem_of_empty.
  - exact Hdata.
  - reflexivity.
  - reflexivity.
  - intros u [->%elem_of_singleton | Hu%elem_of_empty]%elem_of_union; [|done].
    eexists. vm_compute. reflexivity.
Defined.

(** X28: at the end of the program the files are in step: from a start
    state in which every cached URL has its Record and the cache file
    lists only cached URLs, after the run and a successful final
    [save_to_json] the output file holds the whole collection, and every
    URL in the cache file, if that file is whole, has its Record in the
    output file. *)
Theorem final_files_lockstep
    (U : UnicodeData) (W : World) (start end_ : Z) (st : state) :
  lockstep st → cache_file_known st →
  ∃ data,
    output_file (save_to_json WriteOk (run start end_ st)).1 = Stored data ∧
    data = all_data (run start end_ st) ∧
    ∀ urls, cache_file (save_to_json WriteOk (run start end_ st)).1 = Stored urls →
            ∀ u, u ∈ urls → ∃ r, r ∈ data ∧ SourceURL r = u.
Proof.
  intros Hlock Hknown.
  exists (all_data (run start end_ st)). split; [done|]. split; [done|].
  intros urls Hfile u Hu. simpl in Hfile.
  apply (foldl_step_lockstep (seqZ start (end_ + 1 - start)) st Hlock).
  by apply (foldl_step_cache_file_known (seqZ start (end_ + 1 - start)) st Hknown urls).
Qed.

Lemma final_files_lockstep_witness :
  ∃ data,
    output_file (save_to_json WriteOk
      (run (U:=latin_db) (W:=failing_disk_world) 1 2 fresh_state)).1 = Stored data ∧
    data = all_data (run (U:=latin_db) (W:=failing_disk_world) 1 2 fresh_state) ∧
    ∀ urls, cache_file (save_to_json WriteOk
              (run (U:=latin_db) (W:=failing_disk_world) 1 2 fresh_state)).1
            = Stored urls →
            ∀ u, u ∈ urls → ∃ r, r ∈ data ∧ SourceURL r = u.
Proof.
  apply (final_files_lockstep latin_db failing_disk_world 1 2 fresh_state).
  - intros u Hu. by apply elem_of_empty in Hu.
  - intros urls Hfile. discriminate.
Defined.
